(** * A shallow embedding of [bot.py]: the tool-using chatbot

    The development follows the source file top to bottom: the message
    types of the conversation, the dispatcher [BasicToolNode], the router
    [route_tools], the search tool [GoogleSearchTool], the node [chatbot],
    the graph assembled by [create_chatbot_with_memory] and one iteration of
    the loop of [run_interactive_chatbot].

    The language model, the search provider and the summarizing model are
    collaborators outside the repository.  They are kept abstract: each one
    is an operation on an abstract [World] that either returns a value or
    raises, and the code is written in the state-and-error monad over that
    world. *)

From Stdlib Require Import String Ascii List Bool Arith Lia.
From stdpp Require Import base option list strings gmap pretty.

Open Scope string_scope.
Open Scope list_scope.

(** ** Exceptions

    The values of this type stand for instances of Python's [Exception]
    class, which is what [except Exception] handles.  [ExternalError] is any
    failure reported by a collaborator; [str] of it is its message.
    Interrupts delivered from outside the program ([KeyboardInterrupt]) are
    not part of the model. *)

Inductive exception : Type :=
| ValueError (msg : string)
| IndexError (msg : string)
| KeyError (key : string)
| AttributeError (msg : string)
| ValidationError (msg : string)
| GraphRecursionError (msg : string)
| ExternalError (msg : string).

Definition quote : string := String (ascii_of_nat 39) EmptyString.
Definition dquote : string := String (ascii_of_nat 34) EmptyString.
Definition newline : string := String (ascii_of_nat 10) EmptyString.

(** [str(e)].  A [KeyError] prints the [repr] of its key. *)
Definition str (e : exception) : string :=
  match e with
  | KeyError key => quote +:+ key +:+ quote
  | ValueError msg | IndexError msg | AttributeError msg
  | ValidationError msg | GraphRecursionError msg | ExternalError msg => msg
  end.

Inductive outcome (A : Type) : Type :=
| Return (a : A)
| Raise (e : exception).
Arguments Return {A} a.
Arguments Raise {A} e.

(** ** Messages *)

(** A tool call is the dictionary [{"name": .., "args": .., "id": ..}] that
    the model attaches to its message. *)
Record ToolCall : Type := mkToolCall {
  tc_name : string;
  tc_args : gmap string string;
  tc_id : string
}.

Inductive Message : Type :=
| HumanMessage (content : string)
| AIMessage (content : string) (tool_calls : list ToolCall)
| SystemMessage (content : string)
| ToolMessage (content : string) (name : string) (tool_call_id : string).

Definition content (m : Message) : string :=
  match m with
  | HumanMessage c | AIMessage c _ | SystemMessage c | ToolMessage c _ _ => c
  end.

(** [getattr(m, "tool_calls")]: only an [AIMessage] has the attribute. *)
Definition tool_calls (m : Message) : option (list ToolCall) :=
  match m with
  | AIMessage _ tcs => Some tcs
  | _ => None
  end.

Definition is_ai (m : Message) : bool :=
  match m with AIMessage _ _ => true | _ => false end.

Definition is_tool_result (m : Message) : bool :=
  match m with ToolMessage _ _ _ => true | _ => false end.

(** A state dictionary: string keys, message lists as values. *)
Abbreviation dict := (gmap string (list Message)).

(** [d.get("messages", [])] *)
Definition get_messages (d : dict) : list Message :=
  default [] (d !! "messages").

(** ** The collaborators and the monad *)

Class External : Type := {
  World : Type;
  (** [llm.invoke(messages)] of the tool-bound chat model: the content and
      the tool calls of the [AIMessage] it answers with. *)
  llm_invoke : list Message -> World -> outcome (string * list ToolCall) * World;
  (** [search_wrapper.run(query)] *)
  search_run : string -> World -> outcome string * World;
  (** [summarizer_llm.invoke(messages)]: the content of the answer. *)
  summarizer_invoke : list Message -> World -> outcome string * World;
  (** the text Python prints for a state dictionary inside an f-string *)
  format_state : dict -> string
}.

Definition M `{External} (A : Type) : Type := World -> outcome A * World.

Definition ret `{External} {A} (a : A) : M A := fun w => (Return a, w).

Definition raise `{External} {A} (e : exception) : M A := fun w => (Raise e, w).

Definition bind `{External} {A B} (m : M A) (k : A -> M B) : M B :=
  fun w =>
    match m w with
    | (Return a, w') => k a w'
    | (Raise e, w') => (Raise e, w')
    end.

(** [try: body except Exception as e: handler(e)] *)
Definition try_except `{External} {A} (body : M A) (handler : exception -> M A) : M A :=
  fun w =>
    match body w with
    | (Return a, w') => (Return a, w')
    | (Raise e, w') => handler e w'
    end.

Declare Scope py_scope.
Delimit Scope py_scope with py.
Notation "'let*' x ':=' m 'in' k" := (bind m (fun x => k))
  (at level 10, x name, m at level 100, k at level 200) : py_scope.
Open Scope py_scope.


(** [d[key]] *)
Definition getitem `{External} {V} (d : gmap string V) (key : string) : M V :=
  match d !! key with
  | Some v => ret v
  | None => raise (KeyError key)
  end.

(** ** [class BasicToolNode] *)

Record Tool `{External} : Type := mkTool {
  name : string;
  invoke : gmap string string -> M string
}.

Definition class_name (m : Message) : string :=
  match m with
  | HumanMessage _ => "HumanMessage"
  | AIMessage _ _ => "AIMessage"
  | SystemMessage _ => "SystemMessage"
  | ToolMessage _ _ _ => "ToolMessage"
  end.

Definition no_attribute (m : Message) (attr : string) : exception :=
  AttributeError
    (quote +:+ class_name m +:+ "' object has no attribute '" +:+ attr +:+ quote).

Module BasicToolNode.
Section WithExternal.
Context `{External}.

Record t : Type := mk { tools_by_name : gmap string Tool }.

(** [{tool.name: tool for tool in tools}]: a later tool replaces an
    earlier one of the same name. *)
Definition __init__ (tools : list Tool) : t :=
  {| tools_by_name := foldl (fun d tool => <[name tool := tool]> d) ∅ tools |}.

(** The [for tool_call in message.tool_calls] loop, with the list
    [outputs] built so far. *)
Fixpoint for_tool_calls (self : t) (pending : list ToolCall)
    (outputs : list Message) : M (list Message) :=
  match pending with
  | [] => ret outputs
  | tool_call :: rest =>
      let* tool := getitem (tools_by_name self) (tc_name tool_call) in
      let* tool_result := invoke tool (tc_args tool_call) in
      for_tool_calls self rest
        (outputs ++ [ToolMessage tool_result (tc_name tool_call) (tc_id tool_call)])
  end.

Definition __call__ (self : t) (inputs : dict) : M dict :=
  match last (get_messages inputs) with
  | None => raise (ValueError "No message found in input")
  | Some message =>
      match tool_calls message with
      | None => raise (no_attribute message "tool_calls")
      | Some requested =>
          let* outputs := for_tool_calls self requested [] in
          ret ({["messages" := outputs]} : dict)
      end
  end.
End WithExternal.
End BasicToolNode.

(** ** [route_tools] *)

Definition START : string := "__start__".
Definition END : string := "__end__".

(** The argument of [route_tools] is a list of messages or a state
    dictionary. *)
Inductive state_arg : Type :=
| StateList (l : list Message)
| StateDict (d : dict).

Definition route_tools `{External} (state : state_arg) : outcome string :=
  let found :=
    match state with
    | StateList l =>
        match last l with
        | Some m => Return m
        | None => Raise (IndexError "list index out of range")
        end
    | StateDict d =>
        match last (get_messages d) with
        | Some m => Return m
        | None =>
            Raise (ValueError
              ("No messages found in input state to tool_edge: " +:+ format_state d))
        end
    end in
  match found with
  | Raise e => Raise e
  | Return ai_message =>
      match tool_calls ai_message with
      | Some requested =>
          if (0 <? length requested)%nat then Return "tools" else Return END
      | None => Return END
      end
  end.

(** ** [class GoogleSearchTool] *)

Definition indent (n : nat) : string := String.concat "" (replicate n " ").

Module GoogleSearchTool.
Section WithExternal.
Context `{External}.

Definition tool_name : string := "google_search".

Definition summary_prompt (query raw_results : string) : string :=
  "Please summarize the following Google search results for the query "
    +:+ dquote +:+ query +:+ dquote +:+ ". " +:+ newline
  +:+ indent 12
    +:+ "Remove redundant information, irrelevant details, and repetitive content. "
    +:+ newline
  +:+ indent 12
    +:+ "Provide a clear, concise answer that directly addresses the user's question and doesn't include any other information."
    +:+ newline
  +:+ indent 12 +:+ newline
  +:+ indent 12 +:+ "Search Results:" +:+ newline
  +:+ indent 12 +:+ raw_results +:+ newline
  +:+ indent 12 +:+ newline
  +:+ indent 12 +:+ "Summary:".

Definition _run (query : string) : M string :=
  try_except
    (let* raw_results := search_run query in
     let summary_message := HumanMessage (summary_prompt query raw_results) in
     let* summary_response := summarizer_invoke [summary_message] in
     ret summary_response)
    (fun e => ret ("Error searching Google: " +:+ str e)).

Definition _arun (query : string) : M string := _run query.

(** [BaseTool.invoke] of the tool library checks the arguments against
    [args_schema], here [GoogleSearchInput] with its one required field
    [query], and passes the fields to [_run]. *)
Definition invoke_args (args : gmap string string) : M string :=
  match args !! "query" with
  | Some query => _run query
  | None => raise (ValidationError "query: Field required")
  end.

Definition tool : Tool := {| name := tool_name; invoke := invoke_args |}.
End WithExternal.
End GoogleSearchTool.

(** ** The graph builder

    [StateGraph(State)] collects nodes, edges and conditional edges; each
    [add_*] call of the source extends the builder. *)

Module StateGraph.
Section WithExternal.
Context `{External}.

Record t : Type := mk {
  nodes : list (string * (dict -> M dict));
  edges : list (string * string);
  branches : list (string * ((dict -> outcome string) * gmap string string))
}.

Definition empty : t := {| nodes := []; edges := []; branches := [] |}.

Definition add_node (node : string) (action : dict -> M dict) (g : t) : t :=
  {| nodes := nodes g ++ [(node, action)];
     edges := edges g;
     branches := branches g |}.

Definition add_edge (start_key end_key : string) (g : t) : t :=
  {| nodes := nodes g;
     edges := edges g ++ [(start_key, end_key)];
     branches := branches g |}.

Definition add_conditional_edges (source : string)
    (path : dict -> outcome string) (path_map : gmap string string) (g : t) : t :=
  {| nodes := nodes g;
     edges := edges g;
     branches := branches g ++ [(source, (path, path_map))] |}.
End WithExternal.
End StateGraph.

(** ** [create_chatbot_with_memory]

    The environment variables it sets up first play no part in what the
    graph computes and are left out. *)

Section Chatbot.
Context `{External}.

Definition system_prompt : string :=
  "You are a helpful AI assistant. You have memory of the entire conversation history. "
    +:+ newline
  +:+ indent 8
    +:+ "Use this context to provide more relevant and personalized responses. "
    +:+ newline
  +:+ indent 8
    +:+ "Be conversational and engaging while maintaining helpfulness.".

Definition chatbot (state : dict) : M dict :=
  let* messages := getitem state "messages" in
  let system_message := SystemMessage system_prompt in
  let full_messages := [system_message] ++ messages in
  let* response := llm_invoke full_messages in
  ret ({["messages" := [AIMessage response.1 response.2]]} : dict).

(** The dispatcher the graph is built with,
    [BasicToolNode(tools=[google_search_tool])]. *)
Definition graph_tool_node : BasicToolNode.t :=
  BasicToolNode.__init__ [GoogleSearchTool.tool].

Definition create_chatbot_with_memory : StateGraph.t :=
  let google_search_tool := GoogleSearchTool.tool in
  let graph_builder := StateGraph.empty in
  let graph_builder := StateGraph.add_node "chatbot" chatbot graph_builder in
  let tool_node := BasicToolNode.__init__ [google_search_tool] in
  let graph_builder :=
    StateGraph.add_node "tools" (BasicToolNode.__call__ tool_node) graph_builder in
  let graph_builder :=
    StateGraph.add_conditional_edges "chatbot"
      (fun state => route_tools (StateDict state))
      (<["tools" := "tools"]> {[END := END]}) graph_builder in
  let graph_builder := StateGraph.add_edge "tools" "chatbot" graph_builder in
  let graph_builder := StateGraph.add_edge START "chatbot" graph_builder in
  let graph_builder := StateGraph.add_edge "chatbot" END graph_builder in
  graph_builder.
End Chatbot.

(** ** Running the compiled graph

    [compile()] hands the builder to the graph library, whose executor is
    outside the repository.  It is modelled as the library runs a graph:
    in rounds.  A round runs the scheduled nodes on the current state, adds
    each returned update to the state through the reducer of the [State]
    key, and schedules for the next round the targets of the edges and
    conditional edges leaving the nodes that ran.  [END] is not a node:
    an edge or a route to it schedules nothing, and the run is over when
    nothing is scheduled.  The library stops a run that needs more rounds
    than its recursion limit with [GraphRecursionError]. *)

Section Execution.
Context `{External}.

(** The reducer [add_messages] of [State.messages]: as the comment in
    [State] says, it appends the new messages to the list.  Messages carry
    no identifier here; this is the reducer on messages whose identifiers
    differ, as those made within a run do. *)
Definition add_messages (left right : list Message) : list Message :=
  left ++ right.

Definition apply_update (state update : dict) : dict :=
  match update !! "messages" with
  | Some new => <["messages" := add_messages (get_messages state) new]> state
  | None => state
  end.

Definition lift {A} (o : outcome A) : M A :=
  match o with
  | Return a => ret a
  | Raise e => raise e
  end.

Definition find_node (g : StateGraph.t) (node : string) : M (dict -> M dict) :=
  match list_find (fun entry => entry.1 = node) (StateGraph.nodes g) with
  | Some (_, (_, action)) => ret action
  | None => raise (KeyError node)
  end.

(** Targets of the plain edges leaving [node]. *)
Definition edge_targets (g : StateGraph.t) (node : string) : list string :=
  (filter (fun e => e.1 = node) (StateGraph.edges g)).*2.

(** Targets chosen by the conditional edges leaving [node]; the routing
    function reads the state with the node's update applied. *)
Fixpoint routed_targets
    (bs : list (string * ((dict -> outcome string) * gmap string string)))
    (node : string) (state : dict) : outcome (list string) :=
  match bs with
  | [] => Return []
  | (source, (path, path_map)) :: rest =>
      if decide (source = node) then
        match path state with
        | Raise e => Raise e
        | Return route =>
            match path_map !! route with
            | None => Raise (KeyError route)
            | Some target =>
                match routed_targets rest node state with
                | Raise e => Raise e
                | Return more => Return (target :: more)
                end
            end
        end
      else routed_targets rest node state
  end.

Definition targets (g : StateGraph.t) (node : string) (state : dict)
    : outcome (list string) :=
  match routed_targets (StateGraph.branches g) node state with
  | Raise e => Raise e
  | Return routed => Return (edge_targets g node ++ routed)
  end.

(** What gets scheduled: the targets that are nodes, each once. *)
Definition schedule (found : list string) : list string :=
  remove_dups (filter (fun target => target ≠ END) found).

Fixpoint run_nodes (g : StateGraph.t) (active : list string) (state : dict)
    : M (list (string * dict)) :=
  match active with
  | [] => ret []
  | node :: rest =>
      let* action := find_node g node in
      let* update := action state in
      let* more := run_nodes g rest state in
      ret ((node, update) :: more)
  end.

Fixpoint targets_after (g : StateGraph.t) (writes : list (string * dict))
    (state : dict) : outcome (list string) :=
  match writes with
  | [] => Return []
  | (node, update) :: rest =>
      match targets g node (apply_update state update) with
      | Raise e => Raise e
      | Return found =>
          match targets_after g rest state with
          | Raise e => Raise e
          | Return more => Return (found ++ more)
          end
      end
  end.

(** A configuration of a run: the scheduled nodes and the state. *)
Record config : Type := mkConfig { active : list string; values : dict }.

(** One round.  It yields the updates, one per node that ran, and the
    next configuration. *)
Definition superstep (g : StateGraph.t) (c : config)
    : M (list (string * dict) * config) :=
  let* writes := run_nodes g (active c) (values c) in
  let* found := lift (targets_after g writes (values c)) in
  ret (writes,
       {| active := schedule found;
          values := foldl apply_update (values c) writes.*2 |}).

(** The configuration a run starts from: the input is written to the
    state through the reducer and the targets of [START] are scheduled. *)
Definition initial (g : StateGraph.t) (input : dict) : config :=
  {| active := schedule (edge_targets g START);
     values := apply_update ∅ input |}.

Definition finished (c : config) : Prop := active c = [].

(** [graph.invoke(input)]: the final state.  The library looks at its
    recursion limit before it looks at what is scheduled, so a run of k
    rounds returns only under a limit above k. *)
Fixpoint run (g : StateGraph.t) (limit : nat) (c : config) : M dict :=
  match limit with
  | 0 => raise (GraphRecursionError "Recursion limit reached")
  | S limit' =>
      match active c with
      | [] => ret (values c)
      | _ :: _ =>
          let* round := superstep g c in
          run g limit' round.2
      end
  end.
End Execution.

(** ** [run_interactive_chatbot]

    A string stands for the UTF-8 encoding of a Python [str]; the length
    and the slices of a [str] count characters, not bytes. *)

(** [str.strip()] and [str.lower()] are built-ins of the language, not
    code of the repository: they are parameters of what follows. *)
Class Builtins : Type := {
  strip : string -> string;
  lower : string -> string
}.

(** A byte that continues a character begun by an earlier byte. *)
Definition is_continuation (c : ascii) : bool :=
  let n := nat_of_ascii c in ((128 <=? n) && (n <? 192))%nat.

(** [len(s)]: the number of characters. *)
Fixpoint len (s : string) : nat :=
  match s with
  | EmptyString => 0
  | String c rest => if is_continuation c then len rest else S (len rest)
  end.

(** [s[:n]]: the first [n] characters. *)
Fixpoint first_chars (n : nat) (s : string) : string :=
  match s with
  | EmptyString => EmptyString
  | String c rest =>
      if is_continuation c then String c (first_chars n rest)
      else
        match n with
        | 0 => EmptyString
        | S n' => String c (first_chars n' rest)
        end
  end.

(** The loop's variables: the conversation state and what [print] has
    written so far. *)
Record LoopState : Type := mkLoop {
  conversation_state : dict;
  stdout : list string
}.

Inductive control : Type := Continue | Break.

(** [print(text, end=ending)] *)
Definition print (text ending : string) (st : LoopState) : LoopState :=
  {| conversation_state := conversation_state st;
     stdout := stdout st ++ [text +:+ ending] |}.

(** [conversation_state["messages"].append(msg)] *)
Definition append_message (msg : Message) (st : LoopState)
    : option exception * LoopState :=
  match conversation_state st !! "messages" with
  | Some messages =>
      (None, {| conversation_state :=
                  <["messages" := messages ++ [msg]]> (conversation_state st);
                stdout := stdout st |})
  | None => (Some (KeyError "messages"), st)
  end.

Definition rule : string := String.concat "" (replicate 30 "-").

(** One line of the history listing, for the message numbered [i]. *)
Definition history_line (i : nat) (msg : Message) : string :=
  let role := match msg with HumanMessage _ => "You" | _ => "Assistant" end in
  let shown :=
    if (100 <? len (content msg))%nat
    then first_chars 100 (content msg) +:+ "..."
    else content msg in
  pretty i +:+ ". " +:+ role +:+ ": " +:+ shown.

Fixpoint print_history (i : nat) (messages : list Message) (st : LoopState)
    : LoopState :=
  match messages with
  | [] => st
  | msg :: rest => print_history (S i) rest (print (history_line i msg) newline st)
  end.

Definition quit_words : list string := ["quit"; "exit"; "q"].

Definition goodbye_text : string := "Goodbye! It was nice chatting with you! ðŸ‘‹".
Definition cleared_text : string := "Conversation memory cleared! ðŸ§¹".
Definition history_title : string := newline +:+ "ðŸ“œ Conversation History:".
Definition interrupted_text : string := newline +:+ "Goodbye! ðŸ‘‹".

(** How the loop reads a line, in the order of its tests. *)
Inductive command : Type :=
| Quit
| Clear
| History
| Blank
| Say (user_input : string).

Definition classify `{Builtins} (line : string) : command :=
  let user_input := strip line in
  if bool_decide (lower user_input ∈ quit_words) then Quit
  else if bool_decide (lower user_input = "clear") then Clear
  else if bool_decide (lower user_input = "history") then History
  else if bool_decide (user_input = "") then Blank
  else Say user_input.

(** What [input("You: ")] does: it returns the line typed, or the user
    interrupts the program at the prompt ([KeyboardInterrupt]), or it
    raises an exception, as at the end of the input. *)
Inductive input_result : Type :=
| Typed (line : string)
| Interrupted
| InputError (e : exception).

Section Interactive.
Context `{External} `{Builtins}.

(** The body of [for value in event.values()]. *)
Definition show_value (value : dict) (st : LoopState)
    : option exception * LoopState :=
  match value !! "messages" with
  | None => (Some (KeyError "messages"), st)
  | Some produced =>
      match last produced with
      | None => (Some (IndexError "list index out of range"), st)
      | Some ai_message =>
          append_message ai_message (print (content ai_message) "" st)
      end
  end.

Fixpoint show_values (vals : list dict) (st : LoopState)
    : option exception * LoopState :=
  match vals with
  | [] => (None, st)
  | value :: rest =>
      match show_value value st with
      | (Some e, st') => (Some e, st')
      | (None, st') => show_values rest st'
      end
  end.

(** [for event in chatbot.stream(conversation_state)]: the rounds of the
    run are consumed as they are produced, so what was appended before an
    exception stays appended.  As in [run], the recursion limit is looked
    at before what is scheduled. *)
Fixpoint stream_loop (g : StateGraph.t) (limit : nat) (c : config)
    (st : LoopState) (w : World) : (option exception * LoopState) * World :=
  match limit with
  | 0 => ((Some (GraphRecursionError "Recursion limit reached"), st), w)
  | S limit' =>
      match active c with
      | [] => ((None, st), w)
      | _ :: _ =>
          match superstep g c w with
          | (Raise e, w') => ((Some e, st), w')
          | (Return (writes, c'), w') =>
              match show_values writes.*2 st with
              | (Some e, st') => ((Some e, st'), w')
              | (None, st') => stream_loop g limit' c' st' w'
              end
          end
      end
  end.

(** The statements of the [try] block after [input] has returned [line]. *)
Definition try_block (g : StateGraph.t) (limit : nat) (line : string)
    (st : LoopState) (w : World)
    : (option exception * (control * LoopState)) * World :=
  match classify line with
  | Quit => ((None, (Break, print goodbye_text newline st)), w)
  | Clear =>
      let st := {| conversation_state := {["messages" := []]};
                   stdout := stdout st |} in
      ((None, (Continue, print cleared_text newline st)), w)
  | History =>
      let st := print rule newline (print history_title newline st) in
      match conversation_state st !! "messages" with
      | None => ((Some (KeyError "messages"), (Continue, st)), w)
      | Some messages =>
          let st := print_history 1 messages st in
          ((None, (Continue, print rule newline st)), w)
      end
  | Blank => ((None, (Continue, st)), w)
  | Say user_input =>
      let human_message := HumanMessage user_input in
      match append_message human_message st with
      | (Some e, st) => ((Some e, (Continue, st)), w)
      | (None, st) =>
          let st := print "Assistant:" " " st in
          match stream_loop g limit (initial g (conversation_state st)) st w with
          | ((Some e, st), w') => ((Some e, (Continue, st)), w')
          | ((None, st), w') => ((None, (Continue, print "" newline st)), w')
          end
      end
  end.

(** [except Exception as e]: the two lines printed, and the loop goes on. *)
Definition report (e : exception) (st : LoopState) : LoopState :=
  print "Please try again." newline (print ("Error: " +:+ str e) newline st).

(** One iteration of [while True]: the [try] block with its two handlers,
    [except KeyboardInterrupt], which leaves the loop, and
    [except Exception], which reports and goes on.  The interruption is
    taken where the program waits for the user, at the prompt; the
    collaborators of [External] raise exceptions of class [Exception]. *)
Definition loop_body (g : StateGraph.t) (limit : nat) (read : input_result)
    (st : LoopState) (w : World) : (control * LoopState) * World :=
  match read with
  | Interrupted => ((Break, print interrupted_text newline st), w)
  | InputError e => ((Continue, report e st), w)
  | Typed line =>
      match try_block g limit line st w with
      | ((None, result), w') => (result, w')
      | ((Some e, (_, st')), w') => ((Continue, report e st'), w')
      end
  end.
End Interactive.

(** ** White space and lower case on concrete text

    For running the loop on concrete lines: [str.strip()] as it removes the
    white space of Unicode, read off the UTF-8 bytes, and [str.lower()] on
    text made of ASCII characters. *)

(** U+0009 to U+000D and U+001C to U+0020 *)
Definition space1 (a : nat) : bool :=
  (((9 <=? a) && (a <=? 13)) || ((28 <=? a) && (a <=? 32)))%nat.

(** U+0085 and U+00A0 *)
Definition space2 (a b : nat) : bool :=
  ((a =? 194) && ((b =? 133) || (b =? 160)))%nat.

(** U+1680, U+2000 to U+200A, U+2028, U+2029, U+202F, U+205F and U+3000 *)
Definition space3 (a b c : nat) : bool :=
  (((a =? 225) && (b =? 154) && (c =? 128))
   || ((a =? 226) && (b =? 128)
       && (((128 <=? c) && (c <=? 138)) || (c =? 168) || (c =? 169) || (c =? 175)))
   || ((a =? 226) && (b =? 129) && (c =? 159))
   || ((a =? 227) && (b =? 128) && (c =? 128)))%nat.

(** Drops the white space at the front of the bytes; with [backwards] the
    bytes are those of the text read from its end. *)
Fixpoint drop_spaces (backwards : bool) (s : string) : string :=
  match s with
  | EmptyString => s
  | String c1 rest1 =>
      if space1 (nat_of_ascii c1) then drop_spaces backwards rest1
      else
        match rest1 with
        | EmptyString => s
        | String c2 rest2 =>
            if (if backwards
                then space2 (nat_of_ascii c2) (nat_of_ascii c1)
                else space2 (nat_of_ascii c1) (nat_of_ascii c2))
            then drop_spaces backwards rest2
            else
              match rest2 with
              | EmptyString => s
              | String c3 rest3 =>
                  if (if backwards
                      then space3 (nat_of_ascii c3) (nat_of_ascii c2) (nat_of_ascii c1)
                      else space3 (nat_of_ascii c1) (nat_of_ascii c2) (nat_of_ascii c3))
                  then drop_spaces backwards rest3
                  else s
              end
        end
  end.

Definition strip_white_space (s : string) : string :=
  String.rev (drop_spaces true (String.rev (drop_spaces false s))).

(** [str.lower()] where the letters are those of ASCII; every other byte
    stays as it is. *)
Definition lower_char (c : ascii) : ascii :=
  let n := nat_of_ascii c in
  if ((65 <=? n) && (n <=? 90))%nat then ascii_of_nat (n + 32) else c.

Fixpoint lower_ascii (s : string) : string :=
  match s with
  | EmptyString => EmptyString
  | String c rest => String (lower_char c) (lower_ascii rest)
  end.

(** The built-ins on concrete lines: only closed lemmas, which run the
    loop, use them. *)
#[global] Instance text : Builtins := {|
  strip := strip_white_space;
  lower := lower_ascii
|}.

(** ** A scripted world, for running the code on concrete inputs

    The world is the number of calls the collaborators still answer; a call
    made when none is left raises.  The scripted model asks for a search
    when the last message is the user's and answers otherwise. *)

Definition quota_exceeded : exception := ExternalError "quota exceeded".

Definition scripted_answer (messages : list Message) : string * list ToolCall :=
  match last messages with
  | Some (HumanMessage text) =>
      ("", [mkToolCall "google_search" {["query" := text]} "call_1"])
  | _ => ("4", [])
  end.

Definition metered {A} (answer : A) (w : nat) : outcome A * nat :=
  match w with
  | 0 => (Raise quota_exceeded, 0)
  | S w' => (Return answer, w')
  end.

#[global] Instance scripted : External := {|
  World := nat;
  llm_invoke messages := metered (scripted_answer messages);
  search_run query := metered ("results for " +:+ query);
  summarizer_invoke messages := metered "summary";
  format_state state := "{}"
|}.

(** The scripted world in which [n] calls are still answered. *)
Definition quota (n : nat) : @World scripted := n.

(** A tool whose invocation raises. *)
Definition broken_tool `{External} : Tool :=
  {| name := "broken"; invoke := fun _ => raise (ExternalError "boom") |}.

(** ** Notions used in the statements *)

(** A tool-result message answers a request when it carries the request's
    name and correlation identifier. *)
Definition answers (request : ToolCall) (m : Message) : Prop :=
  exists result, m = ToolMessage result (tc_name request) (tc_id request).

(** The most recent message of the argument of [route_tools]. *)
Definition last_turn (state : state_arg) : option Message :=
  match state with
  | StateList l => last l
  | StateDict d => last (get_messages d)
  end.

(** Whether a message carries at least one tool request. *)
Definition requests_tools (m : Message) : bool :=
  match tool_calls m with
  | Some (_ :: _) => true
  | _ => false
  end.

(** A tool that returns a result for the arguments, in every world. *)
Definition returns_on `{External} (tool : Tool) (args : gmap string string) : Prop :=
  forall w, exists result w', invoke tool args w = (Return result, w').

(** A request the dispatcher resolves: its tool is registered and returns. *)
Definition resolves `{External} (self : BasicToolNode.t) (request : ToolCall) : Prop :=
  exists tool,
    BasicToolNode.tools_by_name self !! tc_name request = Some tool
    /\ returns_on tool (tc_args request).

Definition registered `{External} (self : BasicToolNode.t) (request : ToolCall) : Prop :=
  is_Some (BasicToolNode.tools_by_name self !! tc_name request).

(** The conversation kept by the loop only grows from [st] to [st']. *)
Definition grows (st st' : LoopState) : Prop :=
  forall messages,
    conversation_state st !! "messages" = Some messages ->
    exists more, conversation_state st' !! "messages" = Some (messages ++ more).

(** The loop's variables when the session starts. *)
Definition fresh : LoopState :=
  {| conversation_state := {["messages" := []]}; stdout := [] |}.

(** Concrete dispatchers and batches. *)

Definition broken_node : BasicToolNode.t := BasicToolNode.__init__ [broken_tool].

Definition search_node : BasicToolNode.t :=
  BasicToolNode.__init__ [GoogleSearchTool.tool].

Definition call_broken : ToolCall := mkToolCall "broken" ∅ "call_1".
Definition call_missing : ToolCall := mkToolCall "missing" ∅ "call_2".

Definition call_search (query id : string) : ToolCall :=
  mkToolCall "google_search" {["query" := query]} id.

Definition ending_in (m : Message) : dict := {["messages" := [HumanMessage "hello"; m]]}.

(** A run in the scripted world: the user asks about the tides, the model
    asks for a search, the search result comes back, the model answers. *)

Definition ask_search : Message := AIMessage "" [call_search "tides" "call_1"].
Definition search_result : Message := ToolMessage "summary" "google_search" "call_1".

Definition asked : config :=
  initial create_chatbot_with_memory {["messages" := [HumanMessage "tides"]]}.

Definition decided : config :=
  {| active := ["tools"];
     values := {["messages" := [HumanMessage "tides"; ask_search]]} |}.

Definition dispatched : config :=
  {| active := ["chatbot"];
     values := {["messages" := [HumanMessage "tides"; ask_search; search_result]]} |}.

Definition answered : config :=
  {| active := [];
     values := {["messages" :=
                   [HumanMessage "tides"; ask_search; search_result; AIMessage "4" []]]} |}.

(** ** The rest of [bot.py]

    The parts of the file around the graph: the environment prepared by
    [create_chatbot_with_memory], [run_single_response], and the loop of
    [run_interactive_chatbot] over the lines it reads. *)

Section Environment.
Context `{External}.

(** [getpass.getpass(prompt)], a collaborator like the others. *)
Variable getpass : string -> M string.

(** The first statements of [create_chatbot_with_memory], on [os.environ]
    as [load_dotenv()] leaves it. *)
Definition setup_environment (environ : gmap string string)
    : M (gmap string string) :=
  let* environ :=
    match environ !! "GOOGLE_API_KEY" with
    | Some _ => ret environ
    | None =>
        let* key := getpass "Enter your Google AI API key: " in
        ret (<["GOOGLE_API_KEY" := key]> environ)
    end in
  let* environ :=
    match environ !! "GOOGLE_CSE_ID" with
    | Some _ => ret environ
    | None =>
        let* key := getpass "Enter your Google CSE ID: " in
        ret (<["GOOGLE_CSE_ID" := key]> environ)
    end in
  let environ := <["LANGCHAIN_TRACING_V2" := "true"]> environ in
  let* environ :=
    match environ !! "LANGCHAIN_API_KEY" with
    | Some _ => ret environ
    | None =>
        let* key := getpass "Enter your LangSmith API key: " in
        ret (<["LANGCHAIN_API_KEY" := key]> environ)
    end in
  let environ :=
    match environ !! "LANGCHAIN_PROJECT" with
    | Some _ => environ
    | None => <["LANGCHAIN_PROJECT" := "Chatbot with Tools"]> environ
    end in
  ret environ.

(** The two tests at the top of [test_google_search.py]. *)
Definition test_setup (environ : gmap string string) : M (gmap string string) :=
  let* environ :=
    match environ !! "GOOGLE_AI_API_KEY" with
    | Some _ => ret environ
    | None =>
        let* key := getpass "Enter your API key: " in
        ret (<["GOOGLE_API_KEY" := key]> environ)
    end in
  match environ !! "GOOGLE_CSE_ID" with
  | Some _ => ret environ
  | None =>
      let* key := getpass "Enter your Google CSE ID: " in
      ret (<["GOOGLE_CSE_ID" := key]> environ)
  end.
End Environment.

Section Session.
Context `{External}.


(** The configurations a run of [g] on [input] goes through. *)
Inductive reachable (g : StateGraph.t) (input : dict) : config -> Prop :=
| reachable_initial : reachable g input (initial g input)
| reachable_round c w writes c' w' :
    reachable g input c ->
    superstep g c w = (Return (writes, c'), w') ->
    reachable g input c'.

(** What holds of every configuration of a run of the chatbot graph: the
    decision step is scheduled, or the dispatch step is and the state ends
    in an assistant message with requests, or nothing is and the state
    ends in an assistant message without requests. *)
Definition well_sequenced (c : config) : Prop :=
  active c = ["chatbot"]
  \/ (active c = ["tools"]
      /\ exists text requested,
           last (get_messages (values c)) = Some (AIMessage text requested)
           /\ requested <> [])
  \/ (active c = []
      /\ exists text, last (get_messages (values c)) = Some (AIMessage text [])).

End Session.

Section Loop.
Context `{External} `{Builtins}.

(** The iterations of [while True] for what [input] does at each prompt, up
    to the [break]. *)
Fixpoint session (g : StateGraph.t) (limit : nat) (reads : list input_result)
    (st : LoopState) (w : World) : (control * LoopState) * World :=
  match reads with
  | [] => ((Continue, st), w)
  | read :: rest =>
      match loop_body g limit read st w with
      | ((Break, st'), w') => ((Break, st'), w')
      | ((Continue, st'), w') => session g limit rest st' w'
      end
  end.

Definition banner_title : string := "ðŸ¤– AI Assistant with Memory".

(** [run_interactive_chatbot]: the banner, the graph, the empty
    conversation, the loop. *)
Definition run_interactive_chatbot (limit : nat) (reads : list input_result)
    (w : World) : (control * LoopState) * World :=
  let st := {| conversation_state := {["messages" := []]}; stdout := [] |} in
  let st := print banner_title newline st in
  let st := print (String.concat "" (replicate 40 "=")) newline st in
  let st := print "I remember our entire conversation!" newline st in
  let st := print "Type 'quit', 'exit', or 'q' to end the conversation" newline st in
  let st := print "Type 'clear' to clear conversation memory" newline st in
  let st := print "Type 'history' to see conversation history" newline st in
  let st := print "" newline st in
  let chatbot := create_chatbot_with_memory in
  session chatbot limit reads st w.
End Loop.

(** The loop's conversation has its [messages] key. *)
Definition has_messages (st : LoopState) : Prop :=
  is_Some (conversation_state st !! "messages").

(** Whether a line is one of the reserved commands or blank. *)
Definition says_nothing `{Builtins} (line : string) : Prop :=
  match classify line with
  | Say _ => False
  | _ => True
  end.

(** A world whose model answers every question at once with ["4"]. *)
Definition answering : External := {|
  World := nat;
  llm_invoke messages := metered ("4", []);
  search_run query := metered ("results for " +:+ query);
  summarizer_invoke messages := metered "summary";
  format_state state := "{}"
|}.

(** The batch of two searches in one assistant message. *)
Definition ask_twice : Message :=
  AIMessage "" [call_search "tides" "call_1"; call_search "moon" "call_2"].



(** The loop's variables with one message in the conversation. *)
Definition remembering : LoopState :=
  {| conversation_state := {["messages" := [HumanMessage "tides"]]}; stdout := [] |}.

(** A scripted [getpass]. *)
Definition typed_secret (prompt : string) : @M scripted string := metered "secret".


(** U+00A0, the no-break space, in UTF-8. *)
Definition no_break_space : string :=
  String (ascii_of_nat 194) (String (ascii_of_nat 160) EmptyString).

(** Sixty times the letter e with an acute accent, U+00E9: sixty
    characters in a hundred and twenty bytes. *)
Definition sixty_accents : string :=
  String.concat "" (replicate 60 (String (ascii_of_nat 195) (String (ascii_of_nat 169) EmptyString))).

(** What is read at a prompt is not the clear command. *)
Definition not_clear `{Builtins} (read : input_result) : Prop :=
  forall line, read = Typed line -> classify line <> Clear.

(** What is read at a prompt ends the loop. *)
Definition ends_loop `{Builtins} (read : input_result) : Prop :=
  read = Interrupted \/ exists line, read = Typed line /\ classify line = Quit.
(** * Properties *)

(** ** The monad *)

Section MonadFacts.
Context `{External}.

Lemma bind_return {A B} (m : M A) (k : A -> M B) w a w1 :
  m w = (Return a, w1) -> bind m k w = k a w1.
Proof. intros Hm. unfold bind. now rewrite Hm. Qed.

Lemma bind_raise {A B} (m : M A) (k : A -> M B) w e w1 :
  m w = (Raise e, w1) -> bind m k w = (Raise e, w1).
Proof. intros Hm. unfold bind. now rewrite Hm. Qed.

Lemma bind_returns_inv {A B} (m : M A) (k : A -> M B) w b w2 :
  bind m k w = (Return b, w2) ->
  exists a w1, m w = (Return a, w1) /\ k a w1 = (Return b, w2).
Proof.
  unfold bind. destruct (m w) as [[a|e] w1]; intros Hk; [eauto | discriminate].
Qed.

Lemma getitem_some {V} (d : gmap string V) key v w :
  d !! key = Some v -> getitem d key w = (Return v, w).
Proof. intros Hd. unfold getitem. now rewrite Hd. Qed.

Lemma getitem_none {V} (d : gmap string V) key w :
  d !! key = None -> getitem d key w = (Raise (KeyError key), w).
Proof. intros Hd. unfold getitem. now rewrite Hd. Qed.
End MonadFacts.

(** ** The dispatcher *)

Section DispatchFacts.
Context `{External}.
Variable self : BasicToolNode.t.

Lemma for_tool_calls_step request rest outputs tool result w w1 :
  BasicToolNode.tools_by_name self !! tc_name request = Some tool ->
  invoke tool (tc_args request) w = (Return result, w1) ->
  BasicToolNode.for_tool_calls self (request :: rest) outputs w
  = BasicToolNode.for_tool_calls self rest
      (outputs ++ [ToolMessage result (tc_name request) (tc_id request)]) w1.
Proof.
  intros Hreg Hinv. cbn [BasicToolNode.for_tool_calls].
  rewrite (bind_return _ _ w tool w (getitem_some _ _ _ _ Hreg)).
  now rewrite (bind_return _ _ w result w1 Hinv).
Qed.

Lemma for_tool_calls_resolved pending : forall outputs w,
  Forall (resolves self) pending ->
  exists new w',
    BasicToolNode.for_tool_calls self pending outputs w = (Return (outputs ++ new), w')
    /\ Forall2 answers pending new.
Proof.
  induction pending as [|request rest IH]; intros outputs w Hall.
  - exists [], w. cbn. rewrite app_nil_r. split; [reflexivity | constructor].
  - inversion Hall as [|? ? (tool & Hreg & Hret) Hrest]; subst.
    destruct (Hret w) as (result & w1 & Hinv).
    destruct (IH (outputs ++ [ToolMessage result (tc_name request) (tc_id request)])
                w1 Hrest) as (new & w' & Hrun & Hans).
    exists (ToolMessage result (tc_name request) (tc_id request) :: new), w'.
    rewrite (for_tool_calls_step _ _ _ _ _ _ _ Hreg Hinv), Hrun, <- app_assoc.
    split; [reflexivity |].
    constructor; [now exists result | assumption].
Qed.

Lemma for_tool_calls_unknown pending : forall outputs w,
  Exists (fun request => BasicToolNode.tools_by_name self !! tc_name request = None)
    pending ->
  exists e w', BasicToolNode.for_tool_calls self pending outputs w = (Raise e, w').
Proof.
  induction pending as [|request rest IH]; intros outputs w Hex.
  - inversion Hex.
  - cbn [BasicToolNode.for_tool_calls].
    destruct (BasicToolNode.tools_by_name self !! tc_name request) as [tool|] eqn:Hreg.
    + rewrite (bind_return _ _ w tool w (getitem_some _ _ _ _ Hreg)).
      destruct (invoke tool (tc_args request) w) as [[result|e] w1] eqn:Hinv.
      * rewrite (bind_return _ _ w result w1 Hinv). apply IH.
        inversion Hex as [? ? Hhead|? ? Htail]; subst; [congruence | assumption].
      * rewrite (bind_raise _ _ w e w1 Hinv). eauto.
    + rewrite (bind_raise _ _ w _ w (getitem_none _ _ _ Hreg)). eauto.
Qed.

Lemma for_tool_calls_first_unknown before : forall request after outputs w,
  Forall (resolves self) before ->
  BasicToolNode.tools_by_name self !! tc_name request = None ->
  exists w',
    BasicToolNode.for_tool_calls self (before ++ request :: after) outputs w
    = (Raise (KeyError (tc_name request)), w').
Proof.
  induction before as [|head before IH]; intros request after outputs w Hall Hnone.
  - exists w. cbn [app BasicToolNode.for_tool_calls].
    now rewrite (bind_raise _ _ w _ w (getitem_none _ _ _ Hnone)).
  - inversion Hall as [|? ? (tool & Hreg & Hret) Hrest]; subst.
    destruct (Hret w) as (result & w1 & Hinv).
    rewrite <- app_comm_cons, (for_tool_calls_step _ _ _ _ _ _ _ Hreg Hinv).
    now apply IH.
Qed.

Lemma call_on_batch inputs text requested w :
  last (get_messages inputs) = Some (AIMessage text requested) ->
  BasicToolNode.__call__ self inputs w
  = bind (BasicToolNode.for_tool_calls self requested [])
      (fun outputs => ret ({["messages" := outputs]} : dict)) w.
Proof. intros Hlast. unfold BasicToolNode.__call__. now rewrite Hlast. Qed.
End DispatchFacts.

(** ** The search tool *)

Section SearchFacts.
Context `{External}.

Lemma run_when_search_raises query w e w1 :
  search_run query w = (Raise e, w1) ->
  GoogleSearchTool._run query w = (Return ("Error searching Google: " +:+ str e), w1).
Proof.
  intros Hsearch. unfold GoogleSearchTool._run, try_except.
  now rewrite (bind_raise _ _ w e w1 Hsearch).
Qed.

Lemma run_when_summary_raises query w raw w0 e w1 :
  search_run query w = (Return raw, w0) ->
  summarizer_invoke [HumanMessage (GoogleSearchTool.summary_prompt query raw)] w0
  = (Raise e, w1) ->
  GoogleSearchTool._run query w = (Return ("Error searching Google: " +:+ str e), w1).
Proof.
  intros Hsearch Hsummary. unfold GoogleSearchTool._run, try_except.
  rewrite (bind_return _ _ w raw w0 Hsearch).
  now rewrite (bind_raise _ _ w0 e w1 Hsummary).
Qed.

Lemma run_returns query w :
  exists result w', GoogleSearchTool._run query w = (Return result, w').
Proof.
  destruct (search_run query w) as [[raw|e] w0] eqn:Hsearch.
  - destruct (summarizer_invoke
                [HumanMessage (GoogleSearchTool.summary_prompt query raw)] w0)
      as [[summary|e] w1] eqn:Hsummary.
    + exists summary, w1. unfold GoogleSearchTool._run, try_except.
      rewrite (bind_return _ _ w raw w0 Hsearch).
      now rewrite (bind_return _ _ w0 summary w1 Hsummary).
    + eauto using run_when_summary_raises.
  - eauto using run_when_search_raises.
Qed.

Lemma search_tool_returns args query :
  args !! "query" = Some query -> returns_on GoogleSearchTool.tool args.
Proof.
  intros Hquery w. cbn. unfold GoogleSearchTool.invoke_args. rewrite Hquery.
  apply run_returns.
Qed.

(** C3.  Whatever the query, [_run] returns a string and raises nothing.
    When the search-provider call raises, or it returns and the
    summarizing call raises, the string returned is the non-empty report
    ["Error searching Google: " + str(e)]; the dispatcher then takes that
    report as the tool's result and goes on with the remaining requests
    of the batch. *)
Theorem search_failure_is_reported query w :
  (exists result w', GoogleSearchTool._run query w = (Return result, w'))
  /\ forall e w1,
      (search_run query w = (Raise e, w1)
       \/ exists raw w0,
            search_run query w = (Return raw, w0)
            /\ summarizer_invoke
                 [HumanMessage (GoogleSearchTool.summary_prompt query raw)] w0
               = (Raise e, w1)) ->
      let report := "Error searching Google: " +:+ str e in
      GoogleSearchTool._run query w = (Return report, w1)
      /\ report <> ""
      /\ forall self request rest outputs,
           BasicToolNode.tools_by_name self !! tc_name request
             = Some GoogleSearchTool.tool ->
           tc_args request !! "query" = Some query ->
           BasicToolNode.for_tool_calls self (request :: rest) outputs w
           = BasicToolNode.for_tool_calls self rest
               (outputs ++ [ToolMessage report (tc_name request) (tc_id request)]) w1.
Proof.
  split; [apply run_returns |].
  intros e w1 Hfails report.
  assert (Hrun : GoogleSearchTool._run query w = (Return report, w1)).
  { destruct Hfails as [Hsearch | (raw & w0 & Hsearch & Hsummary)].
    - now apply run_when_search_raises.
    - now apply run_when_summary_raises with raw w0. }
  split; [exact Hrun |]. split; [discriminate |].
  intros self request rest outputs Hreg Hquery.
  apply for_tool_calls_step with (tool := GoogleSearchTool.tool); [exact Hreg |].
  cbn. unfold GoogleSearchTool.invoke_args. now rewrite Hquery.
Qed.

(** C10.  [_arun] returns what [_run] returns, for every query and in
    every world. *)
Theorem arun_same_as_run query w :
  GoogleSearchTool._arun query w = GoogleSearchTool._run query w.
Proof. reflexivity. Qed.
End SearchFacts.

Lemma search_failure_is_reported_witness :
  search_run "tides" (quota 0) = (Raise quota_exceeded, quota 0)
  /\ GoogleSearchTool._run "tides" (quota 0)
     = (Return "Error searching Google: quota exceeded", quota 0)
  /\ BasicToolNode.for_tool_calls search_node
       [call_search "tides" "call_1"; call_search "moon" "call_2"] [] (quota 0)
     = BasicToolNode.for_tool_calls search_node [call_search "moon" "call_2"]
         [ToolMessage "Error searching Google: quota exceeded" "google_search" "call_1"]
         (quota 0).
Proof.
  split; [reflexivity |].
  destruct (search_failure_is_reported "tides" (quota 0)) as [_ Hreport].
  destruct (Hreport quota_exceeded (quota 0) (or_introl eq_refl)) as (Hrun & _ & Hnext).
  split; [exact Hrun |].
  apply (Hnext search_node (call_search "tides" "call_1")); reflexivity.
Defined.

(** ** One result per request *)

Section DispatchClaims.
Context `{External}.

(** C1, amended.  When the state ends in an assistant message with N
    requests, each naming a registered tool whose invocation returns a
    result, [__call__] returns exactly N tool-result messages, in the
    order of the requests, each with the name and the correlation
    identifier of its request. *)
Theorem dispatch_answers_each_request self inputs text requested w :
  last (get_messages inputs) = Some (AIMessage text requested) ->
  Forall (resolves self) requested ->
  exists outputs w',
    BasicToolNode.__call__ self inputs w = (Return {["messages" := outputs]}, w')
    /\ length outputs = length requested
    /\ Forall2 answers requested outputs.
Proof.
  intros Hlast Hall.
  destruct (for_tool_calls_resolved self requested [] w Hall)
    as (outputs & w' & Hrun & Hans).
  exists outputs, w'. rewrite (call_on_batch self _ _ _ _ Hlast).
  rewrite (bind_return _ _ w outputs w' Hrun).
  split; [reflexivity |]. split; [| exact Hans].
  symmetry. exact (Forall2_length _ _ _ Hans).
Qed.

(** C4, amended.  When the batch holds a request whose tool name is not
    in the registry, [__call__] raises and returns no message at all: no
    request is skipped and no partial result is handed back.  When every
    request before the first unknown one resolves, the exception is the
    [KeyError] of the unknown name. *)
Theorem dispatch_fails_on_unknown_tool self inputs text requested w :
  last (get_messages inputs) = Some (AIMessage text requested) ->
  Exists (fun request => BasicToolNode.tools_by_name self !! tc_name request = None)
    requested ->
  (exists e w', BasicToolNode.__call__ self inputs w = (Raise e, w'))
  /\ forall before request after,
       requested = before ++ request :: after ->
       Forall (resolves self) before ->
       BasicToolNode.tools_by_name self !! tc_name request = None ->
       exists w',
         BasicToolNode.__call__ self inputs w
         = (Raise (KeyError (tc_name request)), w').
Proof.
  intros Hlast Hex. rewrite (call_on_batch self _ _ _ _ Hlast). split.
  - destruct (for_tool_calls_unknown self requested [] w Hex) as (e & w' & Hrun).
    exists e, w'. now rewrite (bind_raise _ _ w e w' Hrun).
  - intros before request after -> Hall Hnone.
    destruct (for_tool_calls_first_unknown self before request after [] w Hall Hnone)
      as (w' & Hrun).
    exists w'. now rewrite (bind_raise _ _ w _ w' Hrun).
Qed.
End DispatchClaims.

Lemma search_requests_resolve query id :
  resolves search_node (call_search query id).
Proof.
  exists GoogleSearchTool.tool. split; [reflexivity |].
  apply search_tool_returns with query. apply lookup_singleton_eq.
Qed.

(** A search request without a [query] argument does not resolve: the
    tool library rejects the arguments before [_run] is entered. *)
Lemma search_request_without_query_raises w :
  BasicToolNode.__call__ search_node
    (ending_in (AIMessage "" [mkToolCall "google_search" ∅ "call_1"])) w
  = (Raise (ValidationError "query: Field required"), w).
Proof. reflexivity. Qed.

Lemma dispatch_answers_each_request_witness :
  exists outputs w',
    BasicToolNode.__call__ search_node
      (ending_in (AIMessage "" [call_search "tides" "call_1"; call_search "moon" "call_2"]))
      (quota 3)
    = (Return {["messages" := outputs]}, w')
    /\ length outputs = 2
    /\ Forall2 answers [call_search "tides" "call_1"; call_search "moon" "call_2"] outputs.
Proof.
  apply (dispatch_answers_each_request search_node
           (ending_in (AIMessage "" [call_search "tides" "call_1"; call_search "moon" "call_2"]))
           "" [call_search "tides" "call_1"; call_search "moon" "call_2"] (quota 3)).
  - reflexivity.
  - repeat constructor; apply search_requests_resolve.
Defined.

(** C1 as stated fails: the one request of this batch names a registered
    tool, the tool raises, and [__call__] returns no batch. *)
Lemma dispatch_returns_nothing_when_tool_raises :
  Forall (registered broken_node) [call_broken]
  /\ last (get_messages (ending_in (AIMessage "" [call_broken])))
     = Some (AIMessage "" [call_broken])
  /\ ~ exists outputs w',
         BasicToolNode.__call__ broken_node (ending_in (AIMessage "" [call_broken]))
           (quota 3)
         = (Return {["messages" := outputs]}, w')
         /\ length outputs = 1.
Proof.
  split; [repeat constructor; now exists broken_tool |].
  split; [reflexivity |].
  intros (outputs & w' & Hcall & _).
  assert (Hraised :
    BasicToolNode.__call__ broken_node (ending_in (AIMessage "" [call_broken])) (quota 3)
    = (Raise (ExternalError "boom"), quota 3)) by reflexivity.
  rewrite Hraised in Hcall. discriminate.
Qed.

Lemma dispatch_fails_on_unknown_tool_witness :
  (exists e w',
     BasicToolNode.__call__ search_node
       (ending_in (AIMessage "" [call_search "tides" "call_1"; call_missing])) (quota 3)
     = (Raise e, w'))
  /\ exists w',
       BasicToolNode.__call__ search_node
         (ending_in (AIMessage "" [call_search "tides" "call_1"; call_missing])) (quota 3)
       = (Raise (KeyError "missing"), w').
Proof.
  destruct (dispatch_fails_on_unknown_tool search_node
              (ending_in (AIMessage "" [call_search "tides" "call_1"; call_missing]))
              "" [call_search "tides" "call_1"; call_missing] (quota 3))
    as [Hfails Hkey].
  - reflexivity.
  - apply Exists_cons_tl, Exists_cons_hd. reflexivity.
  - split; [exact Hfails |].
    apply (Hkey [call_search "tides" "call_1"] call_missing []).
    + reflexivity.
    + repeat constructor; apply search_requests_resolve.
    + reflexivity.
Defined.

(** C4 as stated fails: the batch holds an unknown tool name, but the
    request before it raises first and the exception that reaches the
    caller is not the [KeyError] of the unknown name. *)
Lemma unknown_tool_error_preceded_by_tool_failure :
  Exists (fun request => BasicToolNode.tools_by_name broken_node !! tc_name request = None)
    [call_broken; call_missing]
  /\ ~ exists key w',
         BasicToolNode.__call__ broken_node
           (ending_in (AIMessage "" [call_broken; call_missing])) (quota 3)
         = (Raise (KeyError key), w').
Proof.
  split; [apply Exists_cons_tl, Exists_cons_hd; reflexivity |].
  intros (key & w' & Hcall).
  assert (Hraised :
    BasicToolNode.__call__ broken_node
      (ending_in (AIMessage "" [call_broken; call_missing])) (quota 3)
    = (Raise (ExternalError "boom"), quota 3)) by reflexivity.
  rewrite Hraised in Hcall. discriminate.
Qed.

(** ** The router *)

Section RoutingFacts.
Context `{External}.

Lemma route_tools_on_last state m :
  last_turn state = Some m ->
  route_tools state = Return (if requests_tools m then "tools" else END).
Proof.
  intros Hlast. unfold route_tools.
  destruct state as [l | d]; cbn [last_turn] in Hlast; rewrite Hlast;
    unfold requests_tools; destruct (tool_calls m) as [[|request rest]|]; reflexivity.
Qed.

(** C2, amended.  [route_tools] threads no world and reads only the most
    recent message: when that message carries a non-empty list of tool
    requests the answer is ["tools"], and otherwise it is [END]; in
    particular a most recent message that is not an assistant message is
    routed to [END].  It raises exactly when there is no message. *)
Theorem route_tools_reads_last_turn state :
  (last_turn state = None -> exists e, route_tools state = Raise e)
  /\ (forall m, last_turn state = Some m ->
        route_tools state = Return (if requests_tools m then "tools" else END))
  /\ (forall m, last_turn state = Some m -> is_ai m = false ->
        route_tools state = Return END)
  /\ (forall other, last_turn state = last_turn other ->
        is_Some (last_turn state) -> route_tools state = route_tools other).
Proof.
  split; [| split; [| split]].
  - intros Hnone. unfold route_tools.
    destruct state as [l | d]; cbn [last_turn] in Hnone; rewrite Hnone; eauto.
  - apply route_tools_on_last.
  - intros m Hlast Hai. rewrite (route_tools_on_last _ _ Hlast).
    destruct m; try discriminate; reflexivity.
  - intros other Hsame [m Hlast].
    rewrite (route_tools_on_last _ _ Hlast).
    rewrite Hsame in Hlast. now rewrite (route_tools_on_last _ _ Hlast).
Qed.
End RoutingFacts.

Lemma route_tools_reads_last_turn_witness :
  route_tools (StateList []) = Raise (IndexError "list index out of range")
  /\ route_tools (StateDict (ending_in (AIMessage "" [call_search "tides" "call_1"])))
     = Return "tools"
  /\ route_tools (StateDict (ending_in (ToolMessage "high at noon" "google_search" "call_1")))
     = Return END
  /\ route_tools (StateList [AIMessage "" [call_search "tides" "call_1"]])
     = route_tools (StateDict (ending_in (AIMessage "" [call_search "tides" "call_1"]))).
Proof.
  split; [reflexivity |].
  split.
  { apply (proj1 (proj2 (route_tools_reads_last_turn
             (StateDict (ending_in (AIMessage "" [call_search "tides" "call_1"])))))
             (AIMessage "" [call_search "tides" "call_1"])); reflexivity. }
  split.
  { apply (proj1 (proj2 (proj2 (route_tools_reads_last_turn
             (StateDict (ending_in (ToolMessage "high at noon" "google_search" "call_1"))))))
             (ToolMessage "high at noon" "google_search" "call_1")); reflexivity. }
  apply (proj2 (proj2 (proj2 (route_tools_reads_last_turn
           (StateList [AIMessage "" [call_search "tides" "call_1"]]))))).
  - reflexivity.
  - now eexists.
Defined.

(** C2 as stated fails: here the most recent message is the user's, not an
    assistant message, and [route_tools] raises nothing: it answers [END]. *)
Lemma route_tools_accepts_user_turn :
  last_turn (StateDict {["messages" := [HumanMessage "hello"]]})
    = Some (HumanMessage "hello")
  /\ is_ai (HumanMessage "hello") = false
  /\ route_tools (StateDict {["messages" := [HumanMessage "hello"]]}) = Return END
  /\ ~ exists e,
         route_tools (StateDict {["messages" := [HumanMessage "hello"]]}) = Raise e.
Proof.
  repeat split; intros [e He]; discriminate He.
Qed.

(** ** The decision step *)

Section DecisionFacts.
Context `{External}.

Lemma chatbot_calls_model state messages w :
  state !! "messages" = Some messages ->
  chatbot state w
  = bind (llm_invoke (SystemMessage system_prompt :: messages))
      (fun response =>
         ret ({["messages" := [AIMessage response.1 response.2]]} : dict)) w.
Proof.
  intros Hstate. unfold chatbot.
  now rewrite (bind_return _ _ w messages w (getitem_some _ _ _ _ Hstate)).
Qed.

(** C5.  For every conversation state, whatever its messages and however
    many, one run of [chatbot] calls the model once, on the history, and
    returns exactly one new message, an assistant message made of the
    model's answer.  It never returns none or several; it returns
    nothing only by raising what the model call raised. *)
Theorem chatbot_returns_one_assistant_turn state messages w :
  state !! "messages" = Some messages ->
  (forall answer w',
     llm_invoke (SystemMessage system_prompt :: messages) w = (Return answer, w') ->
     chatbot state w
     = (Return {["messages" := [AIMessage answer.1 answer.2]]}, w'))
  /\ (forall update w',
        chatbot state w = (Return update, w') ->
        exists turn,
          update = {["messages" := [turn]]} /\ is_ai turn = true
          /\ length (get_messages update) = 1)
  /\ (forall e w',
        llm_invoke (SystemMessage system_prompt :: messages) w = (Raise e, w') ->
        chatbot state w = (Raise e, w')).
Proof.
  intros Hstate. rewrite (chatbot_calls_model _ _ _ Hstate).
  split; [| split].
  - intros answer w' Hmodel. now rewrite (bind_return _ _ w answer w' Hmodel).
  - intros update w' Hrun.
    apply bind_returns_inv in Hrun as (answer & w1 & _ & Hret).
    injection Hret as <- _. exists (AIMessage answer.1 answer.2).
    repeat split.
  - intros e w' Hmodel. now rewrite (bind_raise _ _ w e w' Hmodel).
Qed.

Lemma apply_update_messages state messages new :
  state !! "messages" = Some messages ->
  apply_update state {["messages" := new]}
  = <["messages" := messages ++ new]> state.
Proof.
  intros Hstate. unfold apply_update, get_messages, add_messages.
  now rewrite lookup_singleton_eq, Hstate.
Qed.

(** C8.  [chatbot] calls the model on the history with the system message
    put in front.  The update it returns holds the assistant message
    only, so the state after the step has the earlier messages followed
    by that one message: a system message is in it only if it was in the
    history already, and every other key of the state is unchanged. *)
Theorem system_turn_is_not_persisted state messages w answer w' :
  state !! "messages" = Some messages ->
  llm_invoke ([SystemMessage system_prompt] ++ messages) w = (Return answer, w') ->
  exists update,
    chatbot state w = (Return update, w')
    /\ let state' := apply_update state update in
       state' !! "messages" = Some (messages ++ [AIMessage answer.1 answer.2])
       /\ (forall key, key <> "messages" -> state' !! key = state !! key)
       /\ (forall text, SystemMessage text ∈ get_messages state' ->
             SystemMessage text ∈ messages).
Proof.
  intros Hstate Hmodel.
  exists ({["messages" := [AIMessage answer.1 answer.2]]}).
  split.
  - rewrite (chatbot_calls_model _ _ _ Hstate).
    now rewrite (bind_return _ _ w answer w' Hmodel).
  - cbn zeta. rewrite (apply_update_messages _ _ _ Hstate).
    split; [apply lookup_insert_eq |].
    split.
    + intros key Hkey. now apply lookup_insert_ne.
    + intros text. unfold get_messages. rewrite lookup_insert_eq. cbn.
      rewrite elem_of_app, list_elem_of_singleton.
      intros [Hin | Heq]; [exact Hin | discriminate Heq].
Qed.
End DecisionFacts.

Lemma chatbot_returns_one_assistant_turn_witness :
  chatbot {["messages" := [HumanMessage "tides"]]} (quota 3)
  = (Return {["messages" := [AIMessage "" [call_search "tides" "call_1"]]]}, quota 2)
  /\ chatbot {["messages" := [HumanMessage "tides"]]} (quota 0)
     = (Raise quota_exceeded, quota 0).
Proof.
  destruct (chatbot_returns_one_assistant_turn
              {["messages" := [HumanMessage "tides"]]} [HumanMessage "tides"] (quota 3))
    as (Hone & _ & _); [reflexivity |].
  destruct (chatbot_returns_one_assistant_turn
              {["messages" := [HumanMessage "tides"]]} [HumanMessage "tides"] (quota 0))
    as (_ & _ & Hnone); [reflexivity |].
  split.
  - apply (Hone ("", [call_search "tides" "call_1"]) (quota 2)). reflexivity.
  - apply (Hnone quota_exceeded (quota 0)). reflexivity.
Defined.

Lemma system_turn_is_not_persisted_witness :
  exists update,
    chatbot {["messages" := [HumanMessage "tides"]]} (quota 3)
    = (Return update, quota 2)
    /\ apply_update {["messages" := [HumanMessage "tides"]]} update !! "messages"
       = Some [HumanMessage "tides"; AIMessage "" [call_search "tides" "call_1"]].
Proof.
  destruct (system_turn_is_not_persisted
              {["messages" := [HumanMessage "tides"]]} [HumanMessage "tides"] (quota 3)
              ("", [call_search "tides" "call_1"]) (quota 2))
    as (update & Hrun & Hstate & _); [reflexivity | reflexivity |].
  exists update. split; [exact Hrun | exact Hstate].
Defined.

(** ** The state under the reducer *)

Section ReducerFacts.
Context `{External}.

Lemma get_messages_apply_update state update :
  get_messages (apply_update state update)
  = get_messages state ++ get_messages update.
Proof.
  unfold apply_update, get_messages, add_messages.
  destruct (update !! "messages") as [new|]; cbn.
  - now rewrite lookup_insert_eq.
  - now rewrite app_nil_r.
Qed.

Lemma get_messages_foldl updates : forall state,
  get_messages (foldl apply_update state updates)
  = get_messages state ++ concat (get_messages <$> updates).
Proof.
  induction updates as [|update rest IH]; intros state; cbn.
  - now rewrite app_nil_r.
  - now rewrite IH, get_messages_apply_update, app_assoc.
Qed.

Lemma superstep_inv g c w writes c' w' :
  superstep g c w = (Return (writes, c'), w') ->
  exists w1 found,
    run_nodes g (active c) (values c) w = (Return writes, w1)
    /\ targets_after g writes (values c) = Return found
    /\ w' = w1
    /\ c' = {| active := schedule found;
               values := foldl apply_update (values c) writes.*2 |}.
Proof.
  unfold superstep. intros Hstep.
  apply bind_returns_inv in Hstep as (ran & w1 & Hran & Hstep).
  apply bind_returns_inv in Hstep as (found & w2 & Hfound & Hret).
  destruct (targets_after g ran (values c)) as [found'|e] eqn:Htargets;
    cbn in Hfound; [| discriminate].
  injection Hfound as <- <-. injection Hret as <- <- <-.
  exists w1, found'. auto.
Qed.

Lemma superstep_appends g c w writes c' w' :
  superstep g c w = (Return (writes, c'), w') ->
  get_messages (values c')
  = get_messages (values c) ++ concat (get_messages <$> writes.*2).
Proof.
  intros Hstep. apply superstep_inv in Hstep as (w1 & found & _ & _ & _ & ->).
  apply get_messages_foldl.
Qed.

Lemma run_extends g limit : forall c w final w',
  run g limit c w = (Return final, w') ->
  get_messages (values c) `prefix_of` get_messages final.
Proof.
  induction limit as [|limit IH]; intros c w final w' Hrun; cbn in Hrun;
    [discriminate |].
  destruct (active c) as [|node rest] eqn:Hactive.
  - injection Hrun as <- _. reflexivity.
  - apply bind_returns_inv in Hrun as ([writes c1] & w1 & Hstep & Hrest).
    apply IH in Hrest. apply superstep_appends in Hstep.
    cbn in Hrest. rewrite Hstep in Hrest.
    etransitivity; [apply prefix_app_r; reflexivity | exact Hrest].
Qed.
End ReducerFacts.

(** ** The control flow of the graph *)

Section GraphFacts.
Context `{External}.

Lemma chatbot_targets state text requested :
  last (get_messages state) = Some (AIMessage text requested) ->
  targets create_chatbot_with_memory "chatbot" state
  = Return [END; if requests_tools (AIMessage text requested) then "tools" else END].
Proof.
  intros Hlast. unfold targets.
  change (StateGraph.branches create_chatbot_with_memory)
    with [("chatbot", ((fun state => route_tools (StateDict state)),
                       (<["tools" := "tools"]> {[END := END]} : gmap string string)))].
  cbn [routed_targets].
  destruct (decide ("chatbot" = "chatbot")) as [_|Hne]; [| congruence].
  rewrite (route_tools_on_last (StateDict state) _ Hlast).
  destruct requested as [|request rest]; reflexivity.
Qed.

(** The builder holds a plain edge from the decision step to [END] next
    to the conditional one; it schedules nothing. *)
Lemma plain_edge_to_end :
  edge_targets create_chatbot_with_memory "chatbot" = [END]
  /\ schedule (edge_targets create_chatbot_with_memory "chatbot") = [].
Proof. split; reflexivity. Qed.

Lemma tools_targets state :
  targets create_chatbot_with_memory "tools" state = Return ["chatbot"].
Proof. reflexivity. Qed.

Lemma run_nodes_single g node action state w update w1 :
  find_node g node = ret action ->
  action state w = (Return update, w1) ->
  run_nodes g [node] state w = (Return [(node, update)], w1).
Proof.
  intros Hfind Haction. cbn [run_nodes]. rewrite Hfind.
  rewrite (bind_return (ret action) _ w action w eq_refl).
  now rewrite (bind_return _ _ w update w1 Haction).
Qed.

Lemma superstep_single g node action c w update w1 found :
  active c = [node] ->
  find_node g node = ret action ->
  action (values c) w = (Return update, w1) ->
  targets g node (apply_update (values c) update) = Return found ->
  superstep g c w
  = (Return ([(node, update)],
             {| active := schedule found;
                values := apply_update (values c) update |}), w1).
Proof.
  intros Hactive Hfind Haction Htargets.
  unfold superstep. rewrite Hactive.
  rewrite (bind_return _ _ w _ w1 (run_nodes_single _ _ _ _ _ _ _ Hfind Haction)).
  cbn [targets_after]. rewrite Htargets. cbn. now rewrite app_nil_r.
Qed.

Lemma superstep_single_inv g node action c w writes c' w' :
  active c = [node] ->
  find_node g node = ret action ->
  superstep g c w = (Return (writes, c'), w') ->
  exists update, action (values c) w = (Return update, w') /\ writes = [(node, update)].
Proof.
  intros Hactive Hfind Hstep.
  apply superstep_inv in Hstep as (w1 & found & Hran & _ & -> & _).
  rewrite Hactive in Hran. cbn [run_nodes] in Hran. rewrite Hfind in Hran.
  rewrite (bind_return (ret action) _ w action w eq_refl) in Hran.
  apply bind_returns_inv in Hran as (update & w2 & Haction & Hret).
  injection Hret as <- <-. eauto.
Qed.
Lemma chatbot_returns_inv state w update w' :
  chatbot state w = (Return update, w') ->
  exists messages answer,
    state !! "messages" = Some messages
    /\ llm_invoke (SystemMessage system_prompt :: messages) w = (Return answer, w')
    /\ update = {["messages" := [AIMessage answer.1 answer.2]]}.
Proof.
  intros Hrun. destruct (state !! "messages") as [messages|] eqn:Hstate.
  - rewrite (chatbot_calls_model _ _ _ Hstate) in Hrun.
    apply bind_returns_inv in Hrun as (answer & w1 & Hmodel & Hret).
    injection Hret as <- <-. eauto.
  - unfold chatbot in Hrun.
    rewrite (bind_raise _ _ w _ w (getitem_none _ _ _ Hstate)) in Hrun. discriminate.
Qed.

Lemma last_after_update state m :
  last (get_messages (apply_update state {["messages" := [m]]})) = Some m.
Proof.
  rewrite get_messages_apply_update. unfold get_messages at 2.
  rewrite lookup_singleton_eq. apply last_snoc.
Qed.

Lemma decision_round c w update w1 text requested :
  active c = ["chatbot"] ->
  chatbot (values c) w = (Return update, w1) ->
  update = {["messages" := [AIMessage text requested]]} ->
  superstep create_chatbot_with_memory c w
  = (Return ([("chatbot", update)],
             {| active := if requests_tools (AIMessage text requested)
                          then ["tools"] else [];
                values := apply_update (values c) update |}), w1).
Proof.
  intros Hactive Hrun ->.
  rewrite (superstep_single create_chatbot_with_memory "chatbot" chatbot c w _ w1
             [END; if requests_tools (AIMessage text requested) then "tools" else END]
             Hactive eq_refl Hrun).
  - now destruct requested.
  - apply chatbot_targets, last_after_update.
Qed.

Lemma dispatch_round c w update w1 :
  active c = ["tools"] ->
  BasicToolNode.__call__ graph_tool_node (values c) w = (Return update, w1) ->
  superstep create_chatbot_with_memory c w
  = (Return ([("tools", update)],
             {| active := ["chatbot"];
                values := apply_update (values c) update |}), w1).
Proof.
  intros Hactive Hrun.
  exact (superstep_single create_chatbot_with_memory "tools" (BasicToolNode.__call__ graph_tool_node) c w update w1
           ["chatbot"] Hactive eq_refl Hrun (tools_targets _)).
Qed.

(** C6.  A run of the compiled graph starts at the decision step.  A
    decision step that emits an assistant message with tool requests is
    followed by the tool dispatch step, and the tool dispatch step is
    followed by the decision step.  After a decision step the run is over
    exactly when the emitted message has no tool requests; with requests
    pending the next round is the tool dispatch step, never the end. *)
Theorem control_flow_of_graph :
  (forall input, active (initial create_chatbot_with_memory input) = ["chatbot"])
  /\ (forall c w writes c' w',
        active c = ["chatbot"] ->
        superstep create_chatbot_with_memory c w = (Return (writes, c'), w') ->
        exists text requested,
          writes = [("chatbot", {["messages" := [AIMessage text requested]]})]
          /\ last (get_messages (values c')) = Some (AIMessage text requested)
          /\ (requested <> [] -> active c' = ["tools"])
          /\ (finished c' <-> requested = []))
  /\ (forall c w writes c' w',
        active c = ["tools"] ->
        superstep create_chatbot_with_memory c w = (Return (writes, c'), w') ->
        (exists update, writes = [("tools", update)])
        /\ active c' = ["chatbot"])
  /\ (forall c w messages answer w',
        active c = ["chatbot"] ->
        values c !! "messages" = Some messages ->
        llm_invoke (SystemMessage system_prompt :: messages) w = (Return answer, w') ->
        exists writes c',
          superstep create_chatbot_with_memory c w = (Return (writes, c'), w'))
  /\ (forall c w update w',
        active c = ["tools"] ->
        BasicToolNode.__call__ graph_tool_node (values c) w = (Return update, w') ->
        exists writes c',
          superstep create_chatbot_with_memory c w = (Return (writes, c'), w')).
Proof.
  split; [reflexivity |]. split; [| split; [| split]].
  - intros c w writes c' w' Hactive Hstep.
    destruct (superstep_single_inv create_chatbot_with_memory "chatbot" chatbot c w writes c' w'
                Hactive eq_refl Hstep) as (update & Hrun & ->).
    destruct (chatbot_returns_inv _ _ _ _ Hrun) as (messages & answer & _ & _ & Hupdate).
    rewrite (decision_round c w update w' answer.1 answer.2 Hactive Hrun Hupdate)
      in Hstep.
    injection Hstep as <-. subst update.
    exists answer.1, answer.2. split; [reflexivity |].
    split; [apply last_after_update |].
    unfold finished. cbn [active].
    destruct answer.2 as [|request rest]; cbn; split; try split;
      congruence.
  - intros c w writes c' w' Hactive Hstep.
    destruct (superstep_single_inv create_chatbot_with_memory "tools" (BasicToolNode.__call__ graph_tool_node)
                c w writes c' w' Hactive eq_refl Hstep) as (update & Hrun & ->).
    rewrite (dispatch_round c w update w' Hactive Hrun) in Hstep.
    injection Hstep as <-. split; [eauto | reflexivity].
  - intros c w messages answer w' Hactive Hstate Hmodel.
    eexists _, _.
    apply (decision_round c w {["messages" := [AIMessage answer.1 answer.2]]}
             w' answer.1 answer.2 Hactive); [| reflexivity].
    rewrite (chatbot_calls_model _ _ _ Hstate).
    now rewrite (bind_return _ _ w answer w' Hmodel).
  - intros c w update w' Hactive Hrun.
    eexists _, _. exact (dispatch_round c w update w' Hactive Hrun).
Qed.
End GraphFacts.

Lemma scripted_decision_round :
  superstep create_chatbot_with_memory asked (quota 5)
  = (Return ([("chatbot", {["messages" := [ask_search]]})], decided), quota 4).
Proof. vm_compute. reflexivity. Qed.

Lemma scripted_dispatch_round :
  superstep create_chatbot_with_memory decided (quota 4)
  = (Return ([("tools", {["messages" := [search_result]]})], dispatched), quota 2).
Proof. vm_compute. reflexivity. Qed.

Lemma scripted_final_round :
  superstep create_chatbot_with_memory dispatched (quota 2)
  = (Return ([("chatbot", {["messages" := [AIMessage "4" []]]})], answered), quota 1).
Proof. vm_compute. reflexivity. Qed.

Lemma scripted_run :
  run create_chatbot_with_memory 25 asked (quota 5) = (Return (values answered), quota 1).
Proof. vm_compute. reflexivity. Qed.

Lemma control_flow_of_graph_witness :
  active asked = ["chatbot"]
  /\ (exists text requested,
        [("chatbot", {["messages" := [ask_search]]})]
        = [("chatbot", ({["messages" := [AIMessage text requested]]} : dict))]
        /\ last (get_messages (values decided)) = Some (AIMessage text requested)
        /\ (requested <> [] -> active decided = ["tools"])
        /\ (finished decided <-> requested = []))
  /\ ((exists update : dict,
         [("tools", ({["messages" := [search_result]]} : dict))] = [("tools", update)])
      /\ active dispatched = ["chatbot"])
  /\ (exists text requested,
        [("chatbot", {["messages" := [AIMessage "4" []]]})]
        = [("chatbot", ({["messages" := [AIMessage text requested]]} : dict))]
        /\ last (get_messages (values answered)) = Some (AIMessage text requested)
        /\ (requested <> [] -> active answered = ["tools"])
        /\ (finished answered <-> requested = [])).
Proof.
  destruct control_flow_of_graph as (Hstart & Hdecide & Hdispatch & _ & _).
  split; [apply Hstart |]. split; [| split].
  - apply (Hdecide asked (quota 5) _ decided (quota 4));
      [reflexivity | exact scripted_decision_round].
  - apply (Hdispatch decided (quota 4) _ dispatched (quota 2));
      [reflexivity | exact scripted_dispatch_round].
  - apply (Hdecide dispatched (quota 2) _ answered (quota 1));
      [reflexivity | exact scripted_final_round].
Defined.

(** ** The interactive loop *)

Lemma grows_refl st : grows st st.
Proof. intros messages Hst. exists []. now rewrite app_nil_r. Qed.

Lemma grows_trans st1 st2 st3 : grows st1 st2 -> grows st2 st3 -> grows st1 st3.
Proof.
  intros H12 H23 messages Hst.
  destruct (H12 messages Hst) as (more & Hst2).
  destruct (H23 _ Hst2) as (more' & Hst3).
  exists (more ++ more'). now rewrite app_assoc.
Qed.

Lemma grows_same_conversation st st' :
  conversation_state st' = conversation_state st -> grows st st'.
Proof.
  intros Hsame messages Hst. exists []. now rewrite Hsame, app_nil_r.
Qed.

Lemma grows_has_messages st st' : grows st st' -> has_messages st -> has_messages st'.
Proof.
  intros Hgrows [messages Hst]. destruct (Hgrows _ Hst) as [more Hst'].
  exists (messages ++ more). exact Hst'.
Qed.

Lemma append_message_some msg st messages :
  conversation_state st !! "messages" = Some messages ->
  append_message msg st
  = (None, {| conversation_state :=
                <["messages" := messages ++ [msg]]> (conversation_state st);
              stdout := stdout st |}).
Proof. intros Hst. unfold append_message. now rewrite Hst. Qed.

Lemma append_message_grows msg st o st' :
  append_message msg st = (o, st') -> grows st st'.
Proof.
  unfold append_message. intros Happend messages Hst. rewrite Hst in Happend.
  injection Happend as _ <-. exists [msg]. cbn. apply lookup_insert_eq.
Qed.

Lemma append_empty_r (s : string) : s +:+ "" = s.
Proof.
  induction s as [|c s IH]; [reflexivity |].
  change (String c (s +:+ "") = String c s). now rewrite IH.
Qed.

Lemma print_history_stdout messages : forall i st,
  print_history i messages st
  = {| conversation_state := conversation_state st;
       stdout := stdout st
                 ++ imap (fun k msg => history_line (i + k) msg +:+ newline) messages |}.
Proof.
  induction messages as [|msg rest IH]; intros i st; cbn [print_history imap].
  - rewrite app_nil_r. now destruct st.
  - rewrite IH. cbn. rewrite Nat.add_0_r, <- app_assoc. cbn.
    do 2 f_equal. f_equal. apply imap_ext. intros k m _. cbn.
    now rewrite Nat.add_succ_r.
Qed.

(** Splits the five ways a line is read, [classify_cases], and replaces
    [classify line] by the command of each case. *)
Ltac by_command H Hq Hc Hh He :=
  destruct H as [(Hq & ->) | [(Hq & Hc & ->) | [(Hq & Hc & Hh & ->)
    | [(Hq & Hc & Hh & He & ->) | (Hq & Hc & Hh & He & ->)]]]].

Lemma not_quit_word word :
  bool_decide (word ∈ quit_words) = false -> word ∉ quit_words.
Proof. apply bool_decide_eq_false. Qed.

Section StreamFacts.
Context `{External}.

Lemma show_value_grows value st o st' :
  show_value value st = (o, st') -> grows st st'.
Proof.
  unfold show_value. intros Hshow.
  destruct (value !! "messages") as [produced|];
    [| injection Hshow as _ <-; apply grows_refl].
  destruct (last produced) as [ai_message|];
    [| injection Hshow as _ <-; apply grows_refl].
  apply append_message_grows in Hshow. exact Hshow.
Qed.

Lemma show_values_grows vals : forall st o st',
  show_values vals st = (o, st') -> grows st st'.
Proof.
  induction vals as [|value rest IH]; intros st o st' Hshow; cbn in Hshow.
  - injection Hshow as _ <-. apply grows_refl.
  - destruct (show_value value st) as [[e|] st1] eqn:Hvalue.
    + injection Hshow as _ <-. exact (show_value_grows _ _ _ _ Hvalue).
    + exact (grows_trans _ _ _ (show_value_grows _ _ _ _ Hvalue) (IH _ _ _ Hshow)).
Qed.

Lemma stream_loop_grows g limit : forall c st w o st' w',
  stream_loop g limit c st w = ((o, st'), w') -> grows st st'.
Proof.
  induction limit as [|limit IH]; intros c st w o st' w' Hloop; cbn in Hloop;
    [injection Hloop as _ <- _; apply grows_refl |].
  destruct (active c) as [|node rest];
    [injection Hloop as _ <- _; apply grows_refl |].
  destruct (superstep g c w) as [[[writes c1]|e] w1];
    [| injection Hloop as _ <- _; apply grows_refl].
  destruct (show_values writes.*2 st) as [[e|] st1] eqn:Hshow.
  - injection Hloop as _ <- _. exact (show_values_grows _ _ _ _ Hshow).
  - exact (grows_trans _ _ _ (show_values_grows _ _ _ _ Hshow)
             (IH _ _ _ _ _ _ Hloop)).
Qed.

Lemma stream_loop_over g limit c st w :
  active c = [] -> stream_loop g (S limit) c st w = ((None, st), w).
Proof. intros Hactive. cbn [stream_loop]. now rewrite Hactive. Qed.

Lemma stream_loop_round g limit c st w writes c' w' st' node rest :
  active c = node :: rest ->
  superstep g c w = (Return (writes, c'), w') ->
  show_values writes.*2 st = (None, st') ->
  stream_loop g (S limit) c st w = stream_loop g limit c' st' w'.
Proof.
  intros Hactive Hstep Hshow. cbn [stream_loop].
  now rewrite Hactive, Hstep, Hshow.
Qed.


Lemma show_single_update produced shown st history :
  last produced = Some shown ->
  conversation_state st !! "messages" = Some history ->
  show_values [({["messages" := produced]} : dict)] st
  = (None, {| conversation_state :=
                <["messages" := history ++ [shown]]> (conversation_state st);
              stdout := stdout st ++ [content shown] |}).
Proof.
  intros Hlast Hst. cbn [show_values]. unfold show_value.
  rewrite lookup_singleton_eq, Hlast.
  rewrite (append_message_some _ _ history) by exact Hst.
  cbn [print conversation_state stdout]. now rewrite append_empty_r.
Qed.

Lemma initial_values g input history :
  input !! "messages" = Some history ->
  values (initial g input) = {["messages" := history]}.
Proof.
  intros Hinput. cbn. unfold apply_update. rewrite Hinput.
  unfold add_messages, get_messages. rewrite lookup_empty. cbn.
  apply insert_empty.
Qed.



End StreamFacts.

Section InteractiveFacts.
Context `{External} `{Builtins}.

Lemma classify_cases line :
  let user_input := strip line in
  ((lower user_input ∈ quit_words) /\ classify line = Quit)
  \/ ((lower user_input ∉ quit_words) /\ lower user_input = "clear"
      /\ classify line = Clear)
  \/ ((lower user_input ∉ quit_words) /\ lower user_input <> "clear"
      /\ lower user_input = "history" /\ classify line = History)
  \/ ((lower user_input ∉ quit_words) /\ lower user_input <> "clear"
      /\ lower user_input <> "history" /\ user_input = ""
      /\ classify line = Blank)
  \/ ((lower user_input ∉ quit_words) /\ lower user_input <> "clear"
      /\ lower user_input <> "history" /\ user_input <> ""
      /\ classify line = Say user_input).
Proof.
  intros user_input. unfold classify. fold user_input.
  repeat case_bool_decide; tauto.
Qed.

Lemma history_listing g limit line st w messages :
  classify line = History ->
  conversation_state st !! "messages" = Some messages ->
  loop_body g limit (Typed line) st w
  = ((Continue,
      {| conversation_state := conversation_state st;
         stdout := ((stdout st ++ [history_title +:+ newline]) ++ [rule +:+ newline]
                    ++ imap (fun k msg => history_line (1 + k) msg +:+ newline) messages)
                   ++ [rule +:+ newline] |}), w).
Proof.
  intros Hclass Hst. unfold loop_body, try_block. rewrite Hclass.
  cbn [print conversation_state stdout]. rewrite Hst.
  rewrite print_history_stdout. cbn [print conversation_state stdout].
  now rewrite <- app_assoc.
Qed.

Lemma typed_line_effect g limit line st w :
  let st' := (loop_body g limit (Typed line) st w).1.2 in
  (classify line = Clear /\ conversation_state st' = {["messages" := []]})
  \/ (classify line <> Clear /\ grows st st').
Proof.
  cbn zeta. unfold loop_body, try_block.
  destruct (classify line) as [| | | |user_input] eqn:Hclass.
  - right. split; [discriminate | now apply grows_same_conversation].
  - left. split; reflexivity.
  - right. split; [discriminate |]. cbn [print conversation_state].
    destruct (conversation_state st !! "messages") as [messages|];
      apply grows_same_conversation; [| reflexivity].
    cbn [fst snd print conversation_state]. now rewrite print_history_stdout.
  - right. split; [discriminate | apply grows_refl].
  - right. split; [discriminate |].
    destruct (append_message (HumanMessage user_input) st) as [[e|] st1] eqn:Happend.
    + eapply grows_trans; [exact (append_message_grows _ _ _ _ Happend) |].
      now apply grows_same_conversation.
    + match goal with
      | |- context [stream_loop g limit ?c ?st2 w] =>
          destruct (stream_loop g limit c st2 w) as [[o st3] w'] eqn:Hloop
      end.
      apply stream_loop_grows in Hloop.
      eapply grows_trans; [exact (append_message_grows _ _ _ _ Happend) |].
      eapply grows_trans; [apply (grows_same_conversation st1 (print "Assistant:" " " st1));
                           reflexivity |].
      eapply grows_trans; [exact Hloop |].
      destruct o; now apply grows_same_conversation.
Qed.

Lemma loop_body_effect g limit read st w :
  let st' := (loop_body g limit read st w).1.2 in
  (exists line, read = Typed line /\ classify line = Clear
                /\ conversation_state st' = {["messages" := []]})
  \/ ((forall line, read = Typed line -> classify line <> Clear) /\ grows st st').
Proof.
  destruct read as [line| |e]; cbn zeta.
  - destruct (typed_line_effect g limit line st w) as [[Hclear Hstate] | [Hother Hgrows]].
    + left. eauto.
    + right. split; [| exact Hgrows]. intros line' Heq. now injection Heq as <-.
  - right. split; [discriminate | now apply grows_same_conversation].
  - right. split; [discriminate | now apply grows_same_conversation].
Qed.

Lemma loop_body_keeps_messages g limit read st w :
  has_messages st -> has_messages (loop_body g limit read st w).1.2.
Proof.
  intros Hst.
  destruct (loop_body_effect g limit read st w)
    as [(line & _ & _ & Hclear) | [_ Hgrows]].
  - unfold has_messages. rewrite Hclear, lookup_singleton_eq. now eexists.
  - exact (grows_has_messages _ _ Hgrows Hst).
Qed.

(** C9, amended.  The loop takes the line with the surrounding white space
    removed and compares it in lower case.  It knows three reserved
    commands: the quit words, [clear] and [history].  A line that is none
    of them and is not empty once stripped becomes a user message, holding
    the stripped text, appended to the conversation; a line that is empty
    once stripped changes nothing; [clear] makes the conversation the
    empty sequence; and [history] right after [clear] lists no message. *)
Theorem command_surface g limit line st w :
  let user_input := strip line in
  (classify line = Quit <-> lower user_input ∈ quit_words)
  /\ (classify line = Clear <-> lower user_input = "clear")
  /\ (classify line = History <-> lower user_input = "history")
  /\ (classify line = Blank <->
      user_input = "" /\ (lower user_input ∉ quit_words)
      /\ lower user_input <> "clear" /\ lower user_input <> "history")
  /\ (lower "" = "" -> (classify line = Blank <-> user_input = ""))
  /\ (forall text,
        classify line = Say text <->
        text = user_input /\ text <> "" /\ (lower text ∉ quit_words)
        /\ lower text <> "clear" /\ lower text <> "history")
  /\ (classify line = Quit -> (loop_body g limit (Typed line) st w).1.1 = Break)
  /\ (forall text messages,
        classify line = Say text ->
        conversation_state st !! "messages" = Some messages ->
        exists st' w' more,
          loop_body g limit (Typed line) st w = ((Continue, st'), w')
          /\ conversation_state st' !! "messages"
             = Some (messages ++ HumanMessage text :: more))
  /\ (classify line = Blank -> loop_body g limit (Typed line) st w = ((Continue, st), w))
  /\ (classify line = Clear ->
      exists cleared,
        loop_body g limit (Typed line) st w = ((Continue, cleared), w)
        /\ conversation_state cleared = {["messages" := []]}
        /\ forall line',
             classify line' = History ->
             loop_body g limit (Typed line') cleared w
             = ((Continue,
                 {| conversation_state := {["messages" := []]};
                    stdout := stdout cleared
                              ++ [history_title +:+ newline;
                                  rule +:+ newline; rule +:+ newline] |}), w))
  /\ (has_messages st -> has_messages (loop_body g limit (Typed line) st w).1.2).
Proof.
  intros user_input.
  assert (Hclear : "clear" ∉ quit_words) by (now apply not_quit_word).
  assert (Hhistory : "history" ∉ quit_words) by (now apply not_quit_word).
  assert (Hempty : "" ∉ quit_words) by (now apply not_quit_word).
  pose proof (classify_cases line) as Hcases. cbn zeta in Hcases. fold user_input in Hcases.
  split; [| split; [| split; [| split; [| split; [| split]]]]].
  - by_command Hcases Hq Hc Hh He;
      split; intros Hyp; solve [discriminate | contradiction | reflexivity | assumption].
  - by_command Hcases Hq Hc Hh He;
      split; intros Hyp;
      solve [discriminate | contradiction | reflexivity | assumption
            | rewrite Hyp in Hq; contradiction].
  - by_command Hcases Hq Hc Hh He;
      split; intros Hyp;
      solve [discriminate | contradiction | reflexivity | assumption
            | rewrite Hyp in Hq; contradiction | rewrite Hyp in Hc; discriminate].
  - by_command Hcases Hq Hc Hh He;
      split; try discriminate; try tauto.
  - intros Hlower.
    by_command Hcases Hq Hc Hh He;
      (split; [try discriminate; try tauto | intros Hyp; try reflexivity]);
      rewrite Hyp, Hlower in *; try contradiction; try discriminate.
  - intros text.
    by_command Hcases Hq Hc Hh He;
      split; try discriminate.
    + intros (-> & _ & Hnq & _). contradiction.
    + intros (-> & _ & _ & Hnc & _). contradiction.
    + intros (-> & _ & _ & _ & Hnh). contradiction.
    + intros (-> & Hne & _). contradiction.
    + intros Hsay. injection Hsay as <-. tauto.
    + intros (-> & _). reflexivity.
  - split; [| split; [| split; [| split]]].
    + intros Hclass. unfold loop_body, try_block. now rewrite Hclass.
    + intros text messages Hclass Hst. unfold loop_body, try_block. rewrite Hclass.
      rewrite (append_message_some _ _ _ Hst).
      match goal with
      | |- context [stream_loop g limit ?c ?st2 w] =>
          destruct (stream_loop g limit c st2 w) as [[o st3] w'] eqn:Hloop
      end.
      apply stream_loop_grows in Hloop.
      destruct (Hloop (messages ++ [HumanMessage text])) as (more & Hst3);
        [apply lookup_insert_eq |].
      rewrite <- app_assoc in Hst3.
      destruct o as [e|]; eexists _, w', more; (split; [reflexivity | exact Hst3]).
    + intros Hclass. unfold loop_body, try_block. now rewrite Hclass.
    + intros Hclass. eexists. split; [| split].
      * unfold loop_body, try_block. rewrite Hclass. reflexivity.
      * reflexivity.
      * intros line' Hclass'.
        rewrite (history_listing g limit line' _ w [] Hclass');
          [| apply lookup_singleton_eq].
        cbn. now rewrite <- !app_assoc.
    + apply loop_body_keeps_messages.
Qed.

End InteractiveFacts.

Lemma strip_white_space_examples :
  strip_white_space "  a b  " = "a b"
  /\ strip_white_space (no_break_space +:+ "hi" +:+ no_break_space) = "hi"
  /\ strip_white_space ("a" +:+ no_break_space +:+ "b") = "a" +:+ no_break_space +:+ "b"
  /\ strip_white_space (newline +:+ " ") = ""
  /\ lower_ascii "Quit" = "quit".
Proof. repeat split; vm_compute; reflexivity. Qed.

(** C9 as stated fails: a line of three spaces is not empty and is none of
    the reserved commands, and no user message is appended for it. *)
Lemma blank_line_is_not_a_turn :
  "   " <> ""
  /\ classify "   " <> Quit /\ classify "   " <> Clear /\ classify "   " <> History
  /\ loop_body create_chatbot_with_memory 25 (Typed "   ") fresh (quota 5)
     = ((Continue, fresh), quota 5)
  /\ conversation_state fresh !! "messages" = Some []
  /\ ~ (exists text more,
          conversation_state
            (loop_body create_chatbot_with_memory 25 (Typed "   ") fresh (quota 5)).1.2
            !! "messages"
          = Some ([] ++ HumanMessage text :: more)).
Proof.
  assert (Hbody : loop_body create_chatbot_with_memory 25 (Typed "   ") fresh (quota 5)
                  = ((Continue, fresh), quota 5)) by (vm_compute; reflexivity).
  split; [discriminate |]. split; [vm_compute; discriminate |].
  split; [vm_compute; discriminate |]. split; [vm_compute; discriminate |].
  split; [exact Hbody |]. split; [reflexivity |].
  rewrite Hbody. intros (text & more & Hst). vm_compute in Hst. discriminate.
Qed.

Lemma command_surface_witness :
  classify "  Quit " = Quit
  /\ classify ("quit" +:+ no_break_space) = Quit
  /\ (loop_body create_chatbot_with_memory 25 (Typed "  Quit ") fresh (quota 5)).1.1 = Break
  /\ classify "terminate" = Say "terminate"
  /\ (exists st' w' more,
        loop_body create_chatbot_with_memory 25 (Typed " tides ") fresh (quota 5)
        = ((Continue, st'), w')
        /\ conversation_state st' !! "messages" = Some ([] ++ HumanMessage "tides" :: more))
  /\ classify "   " = Blank
  /\ loop_body create_chatbot_with_memory 25 (Typed "   ") fresh (quota 5)
     = ((Continue, fresh), quota 5)
  /\ exists cleared,
       loop_body create_chatbot_with_memory 25 (Typed "CLEAR") remembering (quota 5)
       = ((Continue, cleared), quota 5)
       /\ conversation_state cleared = {["messages" := []]}
       /\ loop_body create_chatbot_with_memory 25 (Typed "history") cleared (quota 5)
          = ((Continue,
              {| conversation_state := {["messages" := []]};
                 stdout := stdout cleared
                           ++ [history_title +:+ newline;
                               rule +:+ newline; rule +:+ newline] |}), quota 5).
Proof.
  destruct (command_surface create_chatbot_with_memory 25 "  Quit " fresh (quota 5))
    as (Hquit & _ & _ & _ & _ & _ & Hbreak & _).
  destruct (command_surface create_chatbot_with_memory 25 ("quit" +:+ no_break_space)
              fresh (quota 5)) as (Hquit' & _).
  destruct (command_surface create_chatbot_with_memory 25 "terminate" fresh (quota 5))
    as (_ & _ & _ & _ & _ & Hsay & _).
  destruct (command_surface create_chatbot_with_memory 25 " tides " fresh (quota 5))
    as (_ & _ & _ & _ & _ & _ & _ & Hturn & _).
  destruct (command_surface create_chatbot_with_memory 25 "   " fresh (quota 5))
    as (_ & _ & _ & _ & Hblank & _ & _ & _ & Hignored & _).
  destruct (command_surface create_chatbot_with_memory 25 "CLEAR" remembering (quota 5))
    as (_ & _ & _ & _ & _ & _ & _ & _ & _ & Hclear & _).
  split; [apply Hquit, (bool_decide_unpack _); reflexivity |].
  split; [apply Hquit', (bool_decide_unpack _); reflexivity |].
  split; [apply Hbreak; reflexivity |].
  split.
  { apply (Hsay "terminate").
    repeat split; try discriminate; now apply not_quit_word. }
  split; [apply Hturn; reflexivity |].
  split; [apply Hblank; reflexivity |].
  split; [apply Hignored; reflexivity |].
  destruct (Hclear eq_refl) as (cleared & Hbody & Hstate & Hhistory).
  exists cleared. split; [exact Hbody |]. split; [exact Hstate |].
  apply Hhistory. reflexivity.
Defined.


(** * Further properties of the code *)

(** ** The registry built by [__init__] *)

Section RegistryFacts.
Context `{External}.

Lemma registry_fold tools : forall (d : gmap string Tool) key,
  foldl (fun d tool => <[name tool := tool]> d) d tools !! key
  = match last (filter (fun tool => name tool = key) tools) with
    | Some tool => Some tool
    | None => d !! key
    end.
Proof.
  induction tools as [|tool rest IH] using rev_ind; intros d key; [reflexivity |].
  rewrite foldl_app, filter_app, filter_cons, filter_nil. cbn [foldl].
  destruct (decide (name tool = key)) as [Heq | Hne].
  - rewrite last_snoc, Heq. apply lookup_insert_eq.
  - rewrite app_nil_r, lookup_insert_ne by exact Hne. apply IH.
Qed.

(** X1.  The registry maps a name to the last tool of the list that has
    this name; a name that no listed tool has is not registered. *)
Theorem registry_keeps_last_tool tools key :
  BasicToolNode.tools_by_name (BasicToolNode.__init__ tools) !! key
  = last (filter (fun tool => name tool = key) tools)
  /\ (BasicToolNode.tools_by_name (BasicToolNode.__init__ tools) !! key = None
      <-> forall tool, tool ∈ tools -> name tool <> key).
Proof.
  assert (Hlookup :
    BasicToolNode.tools_by_name (BasicToolNode.__init__ tools) !! key
    = last (filter (fun tool => name tool = key) tools)).
  { cbn. rewrite registry_fold, lookup_empty.
    now destruct (last (filter (fun tool => name tool = key) tools)). }
  split; [exact Hlookup |]. rewrite Hlookup, last_None. split.
  - intros Hnone tool Hin Hname.
    assert (Hfiltered : tool ∈ filter (fun tool => name tool = key) tools)
      by (apply list_elem_of_filter; auto).
    rewrite Hnone in Hfiltered. now apply elem_of_nil in Hfiltered.
  - intros Hnames.
    destruct (filter (fun tool => name tool = key) tools) as [|tool rest] eqn:Hfilter;
      [reflexivity |].
    assert (Hfiltered : tool ∈ filter (fun tool => name tool = key) tools)
      by (rewrite Hfilter; apply list_elem_of_here).
    apply list_elem_of_filter in Hfiltered as [Hname Hin].
    now destruct (Hnames tool Hin).
Qed.
End RegistryFacts.

Lemma registry_keeps_last_tool_witness :
  BasicToolNode.tools_by_name
    (BasicToolNode.__init__
       [broken_tool; {| name := "broken"; invoke := GoogleSearchTool.invoke_args |}])
    !! "broken"
  = Some {| name := "broken"; invoke := GoogleSearchTool.invoke_args |}
  /\ BasicToolNode.tools_by_name (BasicToolNode.__init__ [broken_tool]) !! "missing" = None.
Proof.
  split.
  - apply (proj1 (registry_keeps_last_tool
             [broken_tool; {| name := "broken"; invoke := GoogleSearchTool.invoke_args |}]
             "broken")).
  - apply (proj2 (registry_keeps_last_tool [broken_tool] "missing")).
    intros tool Hin. apply list_elem_of_singleton in Hin as ->. discriminate.
Defined.

(** ** More on the dispatcher *)

Section MoreDispatchFacts.
Context `{External}.
Variable self : BasicToolNode.t.

Lemma for_tool_calls_returns_inv pending : forall outputs w result w',
  BasicToolNode.for_tool_calls self pending outputs w = (Return result, w') ->
  exists new, result = outputs ++ new /\ Forall2 answers pending new.
Proof.
  induction pending as [|request rest IH]; intros outputs w result w' Hrun;
    cbn [BasicToolNode.for_tool_calls] in Hrun.
  - injection Hrun as <- _. exists []. rewrite app_nil_r. split; [reflexivity | constructor].
  - apply bind_returns_inv in Hrun as (tool & w1 & _ & Hrun).
    apply bind_returns_inv in Hrun as (tool_result & w2 & _ & Hrun).
    apply IH in Hrun as (new & -> & Hans).
    exists (ToolMessage tool_result (tc_name request) (tc_id request) :: new).
    rewrite <- app_assoc. split; [reflexivity |].
    constructor; [now exists tool_result | exact Hans].
Qed.

(** X2.  Whenever [__call__] returns at all, for any registry and any
    tools, what it returns is the one key [messages] holding one
    tool-result message per request of the last message, in the order of
    the requests, each with its request's name and identifier. *)
Theorem dispatch_result_matches_requests inputs w update w' :
  BasicToolNode.__call__ self inputs w = (Return update, w') ->
  exists text requested outputs,
    last (get_messages inputs) = Some (AIMessage text requested)
    /\ update = {["messages" := outputs]}
    /\ length outputs = length requested
    /\ Forall2 answers requested outputs.
Proof.
  unfold BasicToolNode.__call__. intros Hcall.
  destruct (last (get_messages inputs)) as [message|]; [| discriminate].
  destruct message as [? | text requested | ? | ? ? ?]; try discriminate.
  cbn [tool_calls] in Hcall.
  apply bind_returns_inv in Hcall as (outputs & w1 & Hrun & Hret).
  injection Hret as <- _.
  apply for_tool_calls_returns_inv in Hrun as (new & -> & Hans).
  exists text, requested, new. cbn [app].
  repeat split; [| exact Hans]. symmetry. exact (Forall2_length _ _ _ Hans).
Qed.

Lemma bind_assoc {A B C} (m : M A) (k : A -> M B) (k' : B -> M C) w :
  bind (bind m k) k' w = bind m (fun a => bind (k a) k') w.
Proof. unfold bind. destruct (m w) as [[a|e] w1]; reflexivity. Qed.

Lemma bind_ext {A B} (m : M A) (k k' : A -> M B) w :
  (forall a w1, k a w1 = k' a w1) -> bind m k w = bind m k' w.
Proof. intros Hk. unfold bind. destruct (m w) as [[a|e] w1]; [apply Hk | reflexivity]. Qed.

Lemma for_tool_calls_app first : forall second outputs w,
  BasicToolNode.for_tool_calls self (first ++ second) outputs w
  = bind (BasicToolNode.for_tool_calls self first outputs)
      (fun so_far => BasicToolNode.for_tool_calls self second so_far) w.
Proof.
  induction first as [|request rest IH]; intros second outputs w; [reflexivity |].
  cbn [app BasicToolNode.for_tool_calls]. rewrite bind_assoc.
  apply bind_ext. intros tool w1. rewrite bind_assoc.
  apply bind_ext. intros tool_result w2. apply IH.
Qed.

(** X3.  A batch is dispatched front to back: dispatching [first ++ second]
    is dispatching [first] and then [second] on the outputs and in the
    world that [first] left.  When [first] raises, the batch raises the
    same exception in the same world, whatever [second] is: no tool of a
    later request is invoked. *)
Theorem dispatch_runs_front_to_back first second outputs w :
  BasicToolNode.for_tool_calls self (first ++ second) outputs w
  = bind (BasicToolNode.for_tool_calls self first outputs)
      (fun so_far => BasicToolNode.for_tool_calls self second so_far) w
  /\ forall e w',
       BasicToolNode.for_tool_calls self first outputs w = (Raise e, w') ->
       BasicToolNode.for_tool_calls self (first ++ second) outputs w = (Raise e, w').
Proof.
  split; [apply for_tool_calls_app |].
  intros e w' Hfirst. rewrite for_tool_calls_app.
  now rewrite (bind_raise _ _ w e w' Hfirst).
Qed.

(** X4.  Without a request to serve, [__call__] touches neither the tools
    nor the world.  A state with no message, or none under [messages],
    raises [ValueError]; a last message of a kind without [tool_calls]
    raises [AttributeError]; an assistant message with an empty request
    list gives the empty batch. *)
Theorem dispatch_without_requests inputs w :
  (get_messages inputs = [] ->
   BasicToolNode.__call__ self inputs w
   = (Raise (ValueError "No message found in input"), w))
  /\ (forall message,
        last (get_messages inputs) = Some message -> is_ai message = false ->
        BasicToolNode.__call__ self inputs w
        = (Raise (no_attribute message "tool_calls"), w))
  /\ (forall text,
        last (get_messages inputs) = Some (AIMessage text []) ->
        BasicToolNode.__call__ self inputs w = (Return {["messages" := []]}, w)).
Proof.
  unfold BasicToolNode.__call__. split; [| split].
  - intros ->. reflexivity.
  - intros message -> Hai. destruct message; try discriminate; reflexivity.
  - intros text ->. reflexivity.
Qed.
End MoreDispatchFacts.

Lemma dispatch_result_matches_requests_witness :
  exists text requested outputs,
    last (get_messages (ending_in ask_search)) = Some (AIMessage text requested)
    /\ ({["messages" := [search_result]]} : dict) = {["messages" := outputs]}
    /\ length outputs = length requested
    /\ Forall2 answers requested outputs.
Proof.
  apply (dispatch_result_matches_requests search_node (ending_in ask_search) (quota 4)
           {["messages" := [search_result]]} (quota 2)).
  reflexivity.
Defined.

Lemma dispatch_runs_front_to_back_witness :
  BasicToolNode.for_tool_calls broken_node
    ([call_search "tides" "call_1"; call_broken] ++ [call_missing]) [] (quota 3)
  = (Raise (KeyError "google_search"), quota 3).
Proof.
  apply (proj2 (dispatch_runs_front_to_back broken_node
                  [call_search "tides" "call_1"; call_broken] [call_missing] [] (quota 3))).
  reflexivity.
Defined.

Lemma dispatch_without_requests_witness :
  BasicToolNode.__call__ search_node ∅ (quota 3)
  = (Raise (ValueError "No message found in input"), quota 3)
  /\ BasicToolNode.__call__ search_node (ending_in search_result) (quota 3)
     = (Raise (AttributeError "'ToolMessage' object has no attribute 'tool_calls'"),
        quota 3)
  /\ BasicToolNode.__call__ search_node (ending_in (AIMessage "4" [])) (quota 3)
     = (Return {["messages" := []]}, quota 3).
Proof.
  destruct (dispatch_without_requests search_node ∅ (quota 3)) as (Hempty & _ & _).
  destruct (dispatch_without_requests search_node (ending_in search_result) (quota 3))
    as (_ & Hother & _).
  destruct (dispatch_without_requests search_node (ending_in (AIMessage "4" [])) (quota 3))
    as (_ & _ & Hnone).
  split; [apply Hempty; reflexivity |].
  split; [apply (Hother search_result); reflexivity |].
  apply (Hnone "4"). reflexivity.
Defined.

(** ** More on the search tool *)

Section MoreSearchFacts.
Context `{External}.

(** X5.  [_run] asks the search provider first and the summarizer second,
    with one user message built from the query and the raw results.  When
    both answer, the result is the summary.  In every case the result is
    either a text the summarizer returned for that message or a report
    that starts with ["Error searching Google: "]. *)
Theorem run_returns_summary_or_report query w :
  (forall raw w0 summary w1,
     search_run query w = (Return raw, w0) ->
     summarizer_invoke [HumanMessage (GoogleSearchTool.summary_prompt query raw)] w0
       = (Return summary, w1) ->
     GoogleSearchTool._run query w = (Return summary, w1))
  /\ exists result w',
       GoogleSearchTool._run query w = (Return result, w')
       /\ ((exists raw w0,
              search_run query w = (Return raw, w0)
              /\ summarizer_invoke
                   [HumanMessage (GoogleSearchTool.summary_prompt query raw)] w0
                 = (Return result, w'))
           \/ exists e, result = "Error searching Google: " +:+ str e).
Proof.
  assert (Hboth : forall raw w0 summary w1,
     search_run query w = (Return raw, w0) ->
     summarizer_invoke [HumanMessage (GoogleSearchTool.summary_prompt query raw)] w0
       = (Return summary, w1) ->
     GoogleSearchTool._run query w = (Return summary, w1)).
  { intros raw w0 summary w1 Hsearch Hsummary.
    unfold GoogleSearchTool._run, try_except.
    rewrite (bind_return _ _ w raw w0 Hsearch).
    now rewrite (bind_return _ _ w0 summary w1 Hsummary). }
  split; [exact Hboth |].
  destruct (search_run query w) as [[raw|e] w0] eqn:Hsearch.
  - destruct (summarizer_invoke
                [HumanMessage (GoogleSearchTool.summary_prompt query raw)] w0)
      as [[summary|e] w1] eqn:Hsummary.
    + exists summary, w1. split; [now apply (Hboth raw w0) |]. left. eauto.
    + exists ("Error searching Google: " +:+ str e), w1.
      split; [now apply run_when_summary_raises with raw w0 | right; eauto].
  - exists ("Error searching Google: " +:+ str e), w0.
    split; [now apply run_when_search_raises | right; eauto].
Qed.
End MoreSearchFacts.

Lemma run_returns_summary_or_report_witness :
  GoogleSearchTool._run "tides" (quota 2) = (Return "summary", quota 0).
Proof.
  apply (proj1 (run_returns_summary_or_report "tides" (quota 2))
           "results for tides" (quota 1)); reflexivity.
Defined.


(** ** Runs of the graph *)

Section RunFacts.
Context `{External}.

Lemma superstep_idle g c w :
  active c = [] -> superstep g c w = (Return ([], c), w).
Proof.
  intros Hactive. unfold superstep. rewrite Hactive.
  destruct c as [scheduled state]. cbn in Hactive. subst scheduled. reflexivity.
Qed.

Lemma well_sequenced_round c w writes c' w' :
  well_sequenced c ->
  superstep create_chatbot_with_memory c w = (Return (writes, c'), w') ->
  well_sequenced c'.
Proof.
  intros [Hactive | [[Hactive _] | [Hactive Hlast]]] Hstep.
  - destruct (superstep_single_inv create_chatbot_with_memory "chatbot" chatbot
                c w writes c' w' Hactive eq_refl Hstep) as (update & Hrun & ->).
    destruct (chatbot_returns_inv _ _ _ _ Hrun) as (messages & answer & _ & _ & Hupdate).
    rewrite (decision_round c w update w' answer.1 answer.2 Hactive Hrun Hupdate)
      in Hstep.
    injection Hstep as <-. subst update.
    destruct answer.2 as [|request rest] eqn:Hrequested; cbn.
    + right. right. split; [reflexivity |].
      exists answer.1. cbn. apply last_after_update.
    + right. left. split; [reflexivity |].
      exists answer.1, (request :: rest). split; [| discriminate].
      cbn. apply last_after_update.
  - destruct (superstep_single_inv create_chatbot_with_memory "tools"
                (BasicToolNode.__call__ graph_tool_node) c w writes c' w'
                Hactive eq_refl Hstep) as (update & Hrun & ->).
    rewrite (dispatch_round c w update w' Hactive Hrun) in Hstep.
    injection Hstep as <-. now left.
  - rewrite (superstep_idle _ c w Hactive) in Hstep.
    injection Hstep as _ <- _. right. right. auto.
Qed.

(** X6.  Through a run of the chatbot graph the dispatch step is only
    ever scheduled on a state that ends in an assistant message with at
    least one request, and the run is only ever over on a state that ends
    in an assistant message without requests. *)
Theorem runs_are_well_sequenced input c :
  reachable create_chatbot_with_memory input c -> well_sequenced c.
Proof.
  induction 1 as [|c w writes c' w' _ IH Hstep].
  - now left.
  - exact (well_sequenced_round c w writes c' w' IH Hstep).
Qed.

Lemma run_ends_answered limit : forall c w final w',
  well_sequenced c ->
  run create_chatbot_with_memory limit c w = (Return final, w') ->
  exists text, last (get_messages final) = Some (AIMessage text []).
Proof.
  induction limit as [|limit IH]; intros c w final w' Hseq Hrun; cbn in Hrun;
    [discriminate |].
  destruct (active c) as [|node rest] eqn:Hactive.
  - injection Hrun as <- _.
    destruct Hseq as [Hc | [[Hc _] | [_ Hlast]]]; [congruence | congruence | exact Hlast].
  - apply bind_returns_inv in Hrun as ([writes c1] & w1 & Hstep & Hrest).
    exact (IH c1 w1 final w' (well_sequenced_round c w writes c1 w1 Hseq Hstep) Hrest).
Qed.

Lemma run_from_initial limit input w final w' :
  run create_chatbot_with_memory limit (initial create_chatbot_with_memory input) w
    = (Return final, w') ->
  (exists added, get_messages final = get_messages input ++ added)
  /\ exists text, last (get_messages final) = Some (AIMessage text []).
Proof.
  intros Hrun. split.
  - apply run_extends in Hrun. cbn in Hrun.
    rewrite get_messages_apply_update in Hrun. exact Hrun.
  - assert (Hstart : well_sequenced (initial create_chatbot_with_memory input))
      by (now left).
    exact (run_ends_answered limit _ w final w' Hstart Hrun).
Qed.

(** X7.  When [graph.invoke] returns, the state it returns has its
    [messages] key, and the messages end with an assistant message that
    requests no tool. *)
Theorem invoke_ends_with_final_answer limit input w final w' :
  run create_chatbot_with_memory limit (initial create_chatbot_with_memory input) w
    = (Return final, w') ->
  exists messages text,
    final !! "messages" = Some messages
    /\ last messages = Some (AIMessage text []).
Proof.
  intros Hrun. destruct (run_from_initial limit input w final w' Hrun)
    as [_ [text Hlast]].
  unfold get_messages in Hlast.
  destruct (final !! "messages") as [messages|]; [| discriminate Hlast].
  now exists messages, text.
Qed.







End RunFacts.

Lemma runs_are_well_sequenced_witness : well_sequenced decided.
Proof.
  apply (runs_are_well_sequenced {["messages" := [HumanMessage "tides"]]} decided).
  eapply reachable_round; [| exact scripted_decision_round].
  exact (reachable_initial create_chatbot_with_memory _).
Defined.

Lemma invoke_ends_with_final_answer_witness :
  exists messages text,
    values answered !! "messages" = Some messages
    /\ last messages = Some (AIMessage text []).
Proof.
  exact (invoke_ends_with_final_answer 25 {["messages" := [HumanMessage "tides"]]}
           (quota 5) (values answered) (quota 1) scripted_run).
Defined.


(** ** More on the interactive loop *)

Section MoreInteractiveFacts.
Context `{External} `{Builtins}.

Lemma session_invariants g limit reads : forall st w,
  (has_messages st -> has_messages (session g limit reads st w).1.2)
  /\ (Forall not_clear reads -> grows st (session g limit reads st w).1.2).
Proof.
  induction reads as [|read rest IH]; intros st w; cbn [session].
  - split; [auto | intros _; apply grows_refl].
  - pose proof (loop_body_keeps_messages g limit read st w) as Hkeeps.
    pose proof (loop_body_effect g limit read st w) as Heffect.
    destruct (loop_body g limit read st w) as [[[|] st1] w1]; cbn in Hkeeps, Heffect.
    + destruct (IH st1 w1) as [IHkeeps IHgrows]. split.
      * intros Hst. apply IHkeeps, Hkeeps, Hst.
      * intros Hreads. inversion Hreads as [|? ? Hread Hrest]; subst.
        destruct Heffect as [(line & -> & Hclear & _) | [_ Hgrows]];
          [now destruct (Hread line eq_refl) |].
        exact (grows_trans _ _ _ Hgrows (IHgrows Hrest)).
    + split; [exact Hkeeps |].
      intros Hreads. inversion Hreads as [|? ? Hread Hrest]; subst.
      destruct Heffect as [(line & -> & Hclear & _) | [_ Hgrows]];
        [now destruct (Hread line eq_refl) | exact Hgrows].
Qed.

Lemma ends_loop_breaks g limit read st w :
  ends_loop read -> (loop_body g limit read st w).1.1 = Break.
Proof.
  intros [-> | (line & -> & Hquit)]; [reflexivity |].
  unfold loop_body, try_block. now rewrite Hquit.
Qed.

Lemma session_stops g limit read after : forall before st w,
  ends_loop read ->
  session g limit (before ++ read :: after) st w
  = session g limit (before ++ [read]) st w.
Proof.
  induction before as [|read0 before IH]; intros st w Hleaves; cbn [app session].
  - pose proof (ends_loop_breaks g limit read st w Hleaves) as Hbreak.
    destruct (loop_body g limit read st w) as [[[|] st1] w1]; [discriminate | reflexivity].
  - destruct (loop_body g limit read0 st w) as [[[|] st1] w1]; [| reflexivity].
    now apply IH.
Qed.

(** X9.  However many times the loop prompts and whatever it reads there,
    the loop's conversation keeps its [messages] key, from the start of
    [run_interactive_chatbot] on, so no iteration fails on reading it; and
    as long as no line is the clear command, the conversation only ever
    has messages added at its end. *)
Theorem session_keeps_conversation g limit reads st w :
  (has_messages st -> has_messages (session g limit reads st w).1.2)
  /\ (Forall not_clear reads -> grows st (session g limit reads st w).1.2)
  /\ has_messages (run_interactive_chatbot limit reads w).1.2.
Proof.
  split; [apply session_invariants |]. split; [apply session_invariants |].
  unfold run_interactive_chatbot. apply session_invariants.
  unfold has_messages, print. cbn [conversation_state].
  rewrite lookup_singleton_eq. now eexists.
Qed.

(** X10.  The loop ends on a quit word, after the goodbye, and on an
    interruption at the prompt, after a goodbye of its own; nothing is
    read after either.  A reserved command or a blank line makes no call
    to the model, the search provider or the summarizer; quit, history
    and a blank line leave the conversation as it is. *)
Theorem reserved_commands_stay_local g limit line st w :
  (classify line = Quit ->
   loop_body g limit (Typed line) st w = ((Break, print goodbye_text newline st), w))
  /\ loop_body g limit Interrupted st w = ((Break, print interrupted_text newline st), w)
  /\ (forall read before after,
        ends_loop read ->
        session g limit (before ++ read :: after) st w
        = session g limit (before ++ [read]) st w)
  /\ (says_nothing line -> (loop_body g limit (Typed line) st w).2 = w)
  /\ (says_nothing line -> classify line <> Clear ->
      conversation_state (loop_body g limit (Typed line) st w).1.2 = conversation_state st).
Proof.
  split; [| split; [reflexivity | split; [| split]]].
  - intros Hquit. unfold loop_body, try_block. now rewrite Hquit.
  - intros read before after Hleaves. now apply session_stops.
  - unfold says_nothing, loop_body, try_block.
    destruct (classify line); try reflexivity; [| contradiction].
    intros _. cbn [print conversation_state].
    now destruct (conversation_state st !! "messages").
  - unfold says_nothing, loop_body, try_block.
    destruct (classify line); try reflexivity; try contradiction.
    intros _ _. cbn [print conversation_state].
    destruct (conversation_state st !! "messages"); [| reflexivity].
    cbn. now rewrite print_history_stdout.
Qed.

(** ** One turn of the conversation *)

(** X11.  A line that is said to the assistant and that the model answers
    at once, without a tool request, adds exactly two messages to the
    conversation, the user's and the assistant's, in that order, and
    prints ["Assistant: "], the answer and a line end, when the recursion
    limit is two or more.  The model sees the system message, the
    conversation so far and the new user message. *)
Theorem plain_exchange limit line text st history w answer w' :
  classify line = Say text ->
  conversation_state st !! "messages" = Some history ->
  llm_invoke (SystemMessage system_prompt :: history ++ [HumanMessage text]) w
    = (Return (answer, []), w') ->
  loop_body create_chatbot_with_memory (S (S limit)) (Typed line) st w
  = ((Continue,
      {| conversation_state :=
           <["messages" := history ++ [HumanMessage text; AIMessage answer []]]>
             (conversation_state st);
         stdout := stdout st ++ ["Assistant: "; answer; newline] |}), w').
Proof.
  intros Hclass Hst Hmodel. unfold loop_body, try_block. rewrite Hclass.
  rewrite (append_message_some _ _ _ Hst).
  set (st2 := print "Assistant:" " " _).
  set (c := initial create_chatbot_with_memory _).
  assert (Hvalues : values c = {["messages" := history ++ [HumanMessage text]]})
    by (apply initial_values, lookup_insert_eq).
  assert (Hrun : chatbot (values c) w = (Return {["messages" := [AIMessage answer []]]}, w')).
  { rewrite (chatbot_calls_model _ (history ++ [HumanMessage text]))
      by (rewrite Hvalues; apply lookup_singleton_eq).
    now rewrite (bind_return _ _ w (answer, []) w' Hmodel). }
  pose proof (decision_round c w _ w' answer [] eq_refl Hrun eq_refl) as Hstep.
  rewrite (stream_loop_round _ (S limit) c st2 w _ _ w' _ "chatbot" [] eq_refl Hstep
             (show_single_update [AIMessage answer []] (AIMessage answer []) st2
                (history ++ [HumanMessage text]) eq_refl (lookup_insert_eq _ _ _))).
  rewrite stream_loop_over by reflexivity.
  subst st2. unfold print. cbn [conversation_state stdout content fst snd].
  rewrite insert_insert_eq, <- !app_assoc. reflexivity.
Qed.

End MoreInteractiveFacts.

Section TurnFacts.
Context `{External}.

(** X13.  The loop stores one message for each step of the run, the last
    one of what the step returned.  So of a dispatch step that answers N
    requests, the state of the run receives the N tool-result messages and
    the loop's conversation receives only the one answering the last
    request. *)
Theorem loop_stores_last_result_only limit c st w text requested history :
  active c = ["tools"] ->
  last (get_messages (values c)) = Some (AIMessage text requested) ->
  requested <> [] ->
  Forall (resolves graph_tool_node) requested ->
  conversation_state st !! "messages" = Some history ->
  exists outputs stored request w1,
    Forall2 answers requested outputs
    /\ last requested = Some request /\ last outputs = Some stored
    /\ answers request stored
    /\ stream_loop create_chatbot_with_memory (S limit) c st w
       = stream_loop create_chatbot_with_memory limit
           {| active := ["chatbot"];
              values := apply_update (values c) {["messages" := outputs]} |}
           {| conversation_state :=
                <["messages" := history ++ [stored]]> (conversation_state st);
              stdout := stdout st ++ [content stored] |} w1
    /\ get_messages (apply_update (values c) {["messages" := outputs]})
       = get_messages (values c) ++ outputs.
Proof.
  intros Hactive Hlast Hsome Hall Hst.
  destruct (for_tool_calls_resolved graph_tool_node requested [] w Hall)
    as (outputs & w1 & Hloop & Hans).
  cbn [app] in Hloop.
  assert (Hcall : BasicToolNode.__call__ graph_tool_node (values c) w
                  = (Return {["messages" := outputs]}, w1)).
  { rewrite (call_on_batch _ _ _ _ _ Hlast).
    now rewrite (bind_return _ _ w outputs w1 Hloop). }
  pose proof (Forall2_last _ _ _ Hans) as Hlasts.
  destruct (last requested) as [request|] eqn:Hrequest;
    [| apply last_None in Hrequest; contradiction].
  inversion Hlasts as [? stored Hstored Heq1 Heq2 |]; subst.
  symmetry in Heq2.
  exists outputs, stored, request, w1.
  split; [exact Hans |]. split; [reflexivity |]. split; [exact Heq2 |].
  split; [exact Hstored |]. split.
  - apply (stream_loop_round _ limit c st w _ _ w1 _ "tools" [] Hactive
             (dispatch_round c w _ w1 Hactive Hcall)).
    apply show_single_update; [exact Heq2 | exact Hst].
  - rewrite get_messages_apply_update. unfold get_messages at 2.
    now rewrite lookup_singleton_eq.
Qed.
End TurnFacts.

Lemma session_keeps_conversation_witness :
  has_messages
    (session create_chatbot_with_memory 25 [Typed "tides"; Typed "history"; Interrupted]
       fresh (quota 5)).1.2
  /\ grows fresh
       (session create_chatbot_with_memory 25 [Typed "tides"; Typed "history"; Interrupted]
          fresh (quota 5)).1.2.
Proof.
  destruct (session_keeps_conversation create_chatbot_with_memory 25
              [Typed "tides"; Typed "history"; Interrupted] fresh (quota 5))
    as (Hkeeps & Hgrows & _).
  split.
  - apply Hkeeps. unfold has_messages. now eexists.
  - apply Hgrows. repeat constructor; intros line Hline;
      try discriminate Hline; injection Hline as <-; discriminate.
Defined.

Lemma reserved_commands_stay_local_witness :
  loop_body create_chatbot_with_memory 25 (Typed " Exit ") fresh (quota 5)
  = ((Break, print goodbye_text newline fresh), quota 5)
  /\ session create_chatbot_with_memory 25
       ([Typed "history"] ++ Typed " Exit " :: [Typed "tides"]) fresh (quota 5)
     = session create_chatbot_with_memory 25 ([Typed "history"] ++ [Typed " Exit "]) fresh
         (quota 5)
  /\ session create_chatbot_with_memory 25
       ([Typed "history"] ++ Interrupted :: [Typed "tides"]) fresh (quota 5)
     = session create_chatbot_with_memory 25 ([Typed "history"] ++ [Interrupted]) fresh
         (quota 5)
  /\ (loop_body create_chatbot_with_memory 25 (Typed "history") fresh (quota 5)).2 = quota 5
  /\ conversation_state
       (loop_body create_chatbot_with_memory 25 (Typed "history") fresh (quota 5)).1.2
     = conversation_state fresh.
Proof.
  destruct (reserved_commands_stay_local create_chatbot_with_memory 25 " Exit " fresh
              (quota 5)) as (Hbreak & _ & Hcut & _ & _).
  destruct (reserved_commands_stay_local create_chatbot_with_memory 25 "history" fresh
              (quota 5)) as (_ & _ & _ & Hlocal & Hsame).
  split; [apply Hbreak; reflexivity |].
  split; [apply Hcut; right; exists " Exit "; split; reflexivity |].
  split; [apply Hcut; now left |].
  split; [apply Hlocal; exact I |].
  apply Hsame; [exact I | discriminate].
Defined.

Lemma plain_exchange_witness :
  @loop_body answering text (@create_chatbot_with_memory answering) 2 (Typed " 2+2 ") fresh
    (1 : @World answering)
  = ((Continue,
      {| conversation_state :=
           <["messages" := [] ++ [HumanMessage "2+2"; AIMessage "4" []]]>
             (conversation_state fresh);
         stdout := stdout fresh ++ ["Assistant: "; "4"; newline] |}),
     (0 : @World answering)).
Proof.
  apply (@plain_exchange answering text 0 " 2+2 " "2+2" fresh [] (1 : @World answering) "4"
           (0 : @World answering)); reflexivity.
Defined.


Lemma loop_stores_last_result_only_witness :
  exists outputs stored request w1,
    Forall2 answers [call_search "tides" "call_1"; call_search "moon" "call_2"] outputs
    /\ last [call_search "tides" "call_1"; call_search "moon" "call_2"] = Some request
    /\ last outputs = Some stored
    /\ answers request stored
    /\ stream_loop create_chatbot_with_memory 1
         {| active := ["tools"]; values := ending_in ask_twice |} fresh (quota 4)
       = stream_loop create_chatbot_with_memory 0
           {| active := ["chatbot"];
              values := apply_update (ending_in ask_twice) {["messages" := outputs]} |}
           {| conversation_state :=
                <["messages" := [] ++ [stored]]> (conversation_state fresh);
              stdout := stdout fresh ++ [content stored] |} w1
    /\ get_messages (apply_update (ending_in ask_twice) {["messages" := outputs]})
       = get_messages (ending_in ask_twice) ++ outputs.
Proof.
  apply (loop_stores_last_result_only 0
           {| active := ["tools"]; values := ending_in ask_twice |} fresh (quota 4) ""
           [call_search "tides" "call_1"; call_search "moon" "call_2"] []).
  - reflexivity.
  - reflexivity.
  - discriminate.
  - repeat constructor; apply search_requests_resolve.
  - reflexivity.
Defined.

(** ** The history listing *)

Lemma len_first_chars (s : string) : forall n, len (first_chars n s) <= n.
Proof.
  induction s as [|c s IH]; intros n; cbn [first_chars len]; [lia |].
  destruct (is_continuation c) eqn:Hc.
  - cbn [len]. rewrite Hc. apply IH.
  - destruct n as [|n]; cbn [len]; [lia |]. rewrite Hc. specialize (IH n). lia.
Qed.

Lemma len_append (s1 s2 : string) : len (s1 +:+ s2) = len s1 + len s2.
Proof.
  induction s1 as [|c s1 IH]; [reflexivity |].
  change (len (String c (s1 +:+ s2)) = len (String c s1) + len s2).
  cbn [len]. destruct (is_continuation c); lia.
Qed.

Lemma history_line_shape i msg :
  exists shown,
    history_line i msg
    = pretty i +:+ ". "
      +:+ match msg with HumanMessage _ => "You" | _ => "Assistant" end
      +:+ ": " +:+ shown
    /\ len shown <= 103
    /\ (len (content msg) <= 100 -> shown = content msg)
    /\ (100 < len (content msg) -> shown = first_chars 100 (content msg) +:+ "...").
Proof.
  unfold history_line.
  destruct (100 <? len (content msg))%nat eqn:Hlong.
  - apply Nat.ltb_lt in Hlong.
    exists (first_chars 100 (content msg) +:+ "...").
    split; [reflexivity |]. split; [| split; [lia | reflexivity]].
    rewrite len_append. pose proof (len_first_chars (content msg) 100).
    change (len "...") with 3. lia.
  - apply Nat.ltb_ge in Hlong. exists (content msg).
    split; [reflexivity |]. split; [lia |]. split; [auto | lia].
Qed.

Section HistoryFacts.
Context `{External} `{Builtins}.

(** X14.  On the history command the loop prints the title, a rule, one
    line for each message of the conversation in order, numbered from 1,
    and a rule; it changes nothing in the conversation and calls no
    collaborator.  A line says ["You"] for a user message and
    ["Assistant"] for every other kind, tool results included.  It shows
    the content whole when it has at most 100 characters, and its first
    100 characters followed by three dots otherwise: never more than 103
    characters. *)
Theorem history_lists_every_message g limit line st w messages :
  classify line = History ->
  conversation_state st !! "messages" = Some messages ->
  exists listing,
    loop_body g limit (Typed line) st w
    = ((Continue,
        {| conversation_state := conversation_state st;
           stdout := stdout st ++ [history_title +:+ newline; rule +:+ newline]
                     ++ listing ++ [rule +:+ newline] |}), w)
    /\ length listing = length messages
    /\ forall k msg,
         messages !! k = Some msg ->
         listing !! k = Some (history_line (S k) msg +:+ newline)
         /\ exists shown,
              history_line (S k) msg
              = pretty (S k) +:+ ". "
                +:+ match msg with HumanMessage _ => "You" | _ => "Assistant" end
                +:+ ": " +:+ shown
              /\ len shown <= 103
              /\ (len (content msg) <= 100 -> shown = content msg)
              /\ (100 < len (content msg) ->
                  shown = first_chars 100 (content msg) +:+ "...").
Proof.
  intros Hclass Hst.
  exists (imap (fun k msg => history_line (1 + k) msg +:+ newline) messages).
  split; [| split].
  - rewrite (history_listing g limit line st w messages Hclass Hst).
    do 2 f_equal. f_equal. now rewrite <- !app_assoc.
  - apply length_imap.
  - intros k msg Hk. split; [| apply history_line_shape].
    rewrite list_lookup_imap, Hk. reflexivity.
Qed.
End HistoryFacts.

Lemma sixty_accents_length : len sixty_accents = 60 /\ String.length sixty_accents = 120.
Proof. split; vm_compute; reflexivity. Qed.

Lemma history_lists_every_message_witness :
  exists listing,
    loop_body create_chatbot_with_memory 25 (Typed "History")
      {| conversation_state := {["messages" := [HumanMessage sixty_accents; ask_search]]};
         stdout := [] |} (quota 5)
    = ((Continue,
        {| conversation_state := {["messages" := [HumanMessage sixty_accents; ask_search]]};
           stdout := [] ++ [history_title +:+ newline; rule +:+ newline]
                     ++ listing ++ [rule +:+ newline] |}), quota 5)
    /\ length listing = 2
    /\ listing !! 0 = Some (("1. You: " +:+ sixty_accents) +:+ newline)
    /\ listing !! 1 = Some ("2. Assistant: " +:+ newline).
Proof.
  destruct (@history_lists_every_message scripted text create_chatbot_with_memory 25 "History"
              {| conversation_state := {["messages" := [HumanMessage sixty_accents; ask_search]]};
                 stdout := [] |} (quota 5)
              [HumanMessage sixty_accents; ask_search] eq_refl (lookup_singleton_eq _ _))
    as (listing & Hbody & Hlength & Hlines).
  exists listing. split; [exact Hbody |]. split; [exact Hlength |].
  split; [| exact (proj1 (Hlines 1 ask_search eq_refl))].
  destruct (Hlines 0 (HumanMessage sixty_accents) eq_refl)
    as (Hline & shown & Hshape & _ & Hwhole & _).
  rewrite Hline, Hshape, Hwhole; [reflexivity |].
  cbn [content]. rewrite (proj1 sixty_accents_length). lia.
Defined.

(** ** The environment *)

Section EnvironmentFacts.
Context `{External}.
Variable getpass : string -> M string.

Lemma ask_if_missing key prompt (environ : gmap string string) w environ' w' :
  match environ !! key with
  | Some _ => ret environ
  | None => let* value := getpass prompt in ret (<[key := value]> environ)
  end w = (Return environ', w') ->
  is_Some (environ' !! key)
  /\ (forall k value, environ !! k = Some value -> environ' !! k = Some value)
  /\ (forall k, k <> key -> environ' !! k = environ !! k).
Proof.
  destruct (environ !! key) as [present|] eqn:Hkey; intros Hask.
  - injection Hask as <- _. split; [rewrite Hkey; now eexists | auto].
  - apply bind_returns_inv in Hask as (value & w1 & _ & Hret).
    injection Hret as <- _. split; [| split].
    + rewrite lookup_insert_eq. now eexists.
    + intros k v Hk. rewrite lookup_insert_ne; [exact Hk | congruence].
    + intros k Hne. now apply lookup_insert_ne.
Qed.
(** X15.  When the setup of [create_chatbot_with_memory] returns, the two
    Google variables, the LangSmith key and the project name are all set
    and tracing is ["true"].  Every variable that was set before keeps its
    value, tracing apart, and every variable other than those five is as
    it was. *)
Theorem setup_environment_fills_gaps environ w environ' w' :
  setup_environment getpass environ w = (Return environ', w') ->
  (forall key value,
     environ !! key = Some value -> key <> "LANGCHAIN_TRACING_V2" ->
     environ' !! key = Some value)
  /\ (is_Some (environ' !! "GOOGLE_API_KEY")
      /\ is_Some (environ' !! "GOOGLE_CSE_ID")
      /\ environ' !! "LANGCHAIN_TRACING_V2" = Some "true"
      /\ is_Some (environ' !! "LANGCHAIN_API_KEY")
      /\ is_Some (environ' !! "LANGCHAIN_PROJECT"))
  /\ (forall key,
        key ∉ ["GOOGLE_API_KEY"; "GOOGLE_CSE_ID"; "LANGCHAIN_TRACING_V2";
               "LANGCHAIN_API_KEY"; "LANGCHAIN_PROJECT"] ->
        environ' !! key = environ !! key).
Proof.
  unfold setup_environment. intros Hsetup.
  apply bind_returns_inv in Hsetup as (e1 & w1 & Hask1 & Hsetup).
  apply bind_returns_inv in Hsetup as (e2 & w2 & Hask2 & Hsetup).
  apply bind_returns_inv in Hsetup as (e3 & w3 & Hask3 & Hret).
  apply ask_if_missing in Hask1 as (Hset1 & Hkeep1 & Hsame1).
  apply ask_if_missing in Hask2 as (Hset2 & Hkeep2 & Hsame2).
  apply ask_if_missing in Hask3 as (Hset3 & Hkeep3 & Hsame3).
  injection Hret as <- _.
  assert (Hlast : forall k value,
            e3 !! k = Some value ->
            match e3 !! "LANGCHAIN_PROJECT" with
            | Some _ => e3
            | None => <["LANGCHAIN_PROJECT" := "Chatbot with Tools"]> e3
            end !! k = Some value).
  { intros k value Hk. destruct (e3 !! "LANGCHAIN_PROJECT") eqn:Hproject; [exact Hk |].
    rewrite lookup_insert_ne; [exact Hk | congruence]. }
  assert (Hpresent : forall k, is_Some (e3 !! k) ->
            is_Some (match e3 !! "LANGCHAIN_PROJECT" with
                     | Some _ => e3
                     | None => <["LANGCHAIN_PROJECT" := "Chatbot with Tools"]> e3
                     end !! k)).
  { intros k [value Hk]. exists value. now apply Hlast. }
  split; [| split].
  - intros key value Hkey Hne. apply Hlast, Hkeep3.
    rewrite lookup_insert_ne by congruence. now apply Hkeep2, Hkeep1.
  - repeat split.
    + apply Hpresent. destruct Hset1 as [value Hvalue]. exists value.
      apply Hkeep3. rewrite lookup_insert_ne by discriminate. now apply Hkeep2.
    + apply Hpresent. destruct Hset2 as [value Hvalue]. exists value.
      apply Hkeep3. now rewrite lookup_insert_ne by discriminate.
    + apply Hlast, Hkeep3, lookup_insert_eq.
    + apply Hpresent, Hset3.
    + destruct (e3 !! "LANGCHAIN_PROJECT") eqn:Hproject.
      * rewrite Hproject. now eexists.
      * rewrite lookup_insert_eq. now eexists.
  - intros key Hkey.
    assert (Hother : key <> "GOOGLE_API_KEY" /\ key <> "GOOGLE_CSE_ID"
                     /\ key <> "LANGCHAIN_TRACING_V2" /\ key <> "LANGCHAIN_API_KEY"
                     /\ key <> "LANGCHAIN_PROJECT").
    { repeat split; intros ->; apply Hkey; set_solver. }
    destruct Hother as (Hne1 & Hne2 & Hne3 & Hne4 & Hne5).
    transitivity (e3 !! key).
    { destruct (e3 !! "LANGCHAIN_PROJECT"); [reflexivity |].
      now apply lookup_insert_ne. }
    rewrite (Hsame3 key Hne4), lookup_insert_ne by congruence.
    now rewrite (Hsame2 key Hne2), (Hsame1 key Hne1).
Qed.

(** X16.  With the Google key, the search-engine identifier and the
    LangSmith key already set, the setup asks nothing, whatever [getpass]
    would do: it sets tracing to ["true"], gives the project its default
    name unless it has one, and leaves the world as it was. *)
Theorem setup_environment_asks_nothing environ w api cse langsmith :
  environ !! "GOOGLE_API_KEY" = Some api ->
  environ !! "GOOGLE_CSE_ID" = Some cse ->
  environ !! "LANGCHAIN_API_KEY" = Some langsmith ->
  setup_environment getpass environ w
  = (Return
       (match environ !! "LANGCHAIN_PROJECT" with
        | Some _ => <["LANGCHAIN_TRACING_V2" := "true"]> environ
        | None =>
            <["LANGCHAIN_PROJECT" := "Chatbot with Tools"]>
              (<["LANGCHAIN_TRACING_V2" := "true"]> environ)
        end), w).
Proof.
  intros Hapi Hcse Hlangsmith. unfold setup_environment. rewrite Hapi.
  rewrite (bind_return (ret environ) _ w environ w eq_refl). rewrite Hcse.
  rewrite (bind_return (ret environ) _ w environ w eq_refl).
  rewrite lookup_insert_ne by discriminate. rewrite Hlangsmith.
  rewrite (bind_return (ret _) _ w _ w eq_refl).
  rewrite lookup_insert_ne by discriminate.
  now destruct (environ !! "LANGCHAIN_PROJECT").
Qed.

(** X17.  The test script tests for [GOOGLE_AI_API_KEY] and writes
    [GOOGLE_API_KEY].  So when the first is not set it asks for a key and
    puts the answer over whatever [GOOGLE_API_KEY] held; and when the first
    is set it neither asks for a key nor sets [GOOGLE_API_KEY], set or
    not: all that is left of the script's setup is the test for the
    search-engine identifier, which asks nothing either when that is
    set. *)
Theorem test_setup_checks_another_name environ w :
  (is_Some (environ !! "GOOGLE_AI_API_KEY") ->
   test_setup getpass environ w
   = match environ !! "GOOGLE_CSE_ID" with
     | Some _ => (Return environ, w)
     | None =>
         (let* id := getpass "Enter your Google CSE ID: " in
          ret (<["GOOGLE_CSE_ID" := id]> environ)) w
     end)
  /\ (environ !! "GOOGLE_AI_API_KEY" = None ->
      test_setup getpass environ w
      = match getpass "Enter your API key: " w with
        | (Return typed, w1) =>
            match environ !! "GOOGLE_CSE_ID" with
            | Some _ => (Return (<["GOOGLE_API_KEY" := typed]> environ), w1)
            | None =>
                (let* id := getpass "Enter your Google CSE ID: " in
                 ret (<["GOOGLE_CSE_ID" := id]> (<["GOOGLE_API_KEY" := typed]> environ))) w1
            end
        | (Raise e, w1) => (Raise e, w1)
        end)
  /\ (forall environ' w',
        test_setup getpass environ w = (Return environ', w') ->
        (environ !! "GOOGLE_AI_API_KEY" = None ->
         exists typed w1,
           getpass "Enter your API key: " w = (Return typed, w1)
           /\ environ' !! "GOOGLE_API_KEY" = Some typed)
        /\ (is_Some (environ !! "GOOGLE_AI_API_KEY") ->
            environ' !! "GOOGLE_API_KEY" = environ !! "GOOGLE_API_KEY")).
Proof.
  split; [| split].
  - intros [value Hvalue]. unfold test_setup. rewrite Hvalue.
    rewrite (bind_return (ret environ) _ w environ w eq_refl).
    now destruct (environ !! "GOOGLE_CSE_ID").
  - intros Hnone. unfold test_setup. rewrite Hnone.
    destruct (getpass "Enter your API key: " w) as [[typed|e] w1] eqn:Hget.
    + rewrite (bind_return _ _ w (<["GOOGLE_API_KEY" := typed]> environ) w1)
        by (now rewrite (bind_return _ _ w typed w1 Hget)).
      rewrite lookup_insert_ne by discriminate.
      now destruct (environ !! "GOOGLE_CSE_ID").
    + apply bind_raise. now apply bind_raise.
  - intros environ' w' Hsetup. unfold test_setup in Hsetup.
    apply bind_returns_inv in Hsetup as (e1 & w1 & Hask1 & Hask2).
    apply ask_if_missing in Hask2 as (_ & Hkeep2 & Hsame2).
    rewrite (Hsame2 "GOOGLE_API_KEY") by discriminate.
    split.
    + intros Hnone. rewrite Hnone in Hask1.
      apply bind_returns_inv in Hask1 as (typed & w0 & Hget & Hret).
      injection Hret as <- <-. exists typed, w0. split; [exact Hget |].
      apply lookup_insert_eq.
    + intros [value Hvalue]. rewrite Hvalue in Hask1. now injection Hask1 as <- _.
Qed.
End EnvironmentFacts.

Lemma setup_environment_fills_gaps_witness :
  exists environ',
    setup_environment typed_secret {["GOOGLE_CSE_ID" := "engine"]} (quota 2)
    = (Return environ', quota 0)
    /\ environ' !! "GOOGLE_CSE_ID" = Some "engine"
    /\ environ' !! "LANGCHAIN_TRACING_V2" = Some "true"
    /\ is_Some (environ' !! "LANGCHAIN_PROJECT").
Proof.
  destruct (setup_environment typed_secret {["GOOGLE_CSE_ID" := "engine"]} (quota 2))
    as [[environ'|e] w'] eqn:Hsetup; [| discriminate Hsetup].
  destruct (setup_environment_fills_gaps typed_secret _ (quota 2) environ' w' Hsetup)
    as (Hkeeps & (_ & _ & Htracing & _ & Hproject) & _).
  exists environ'. split; [| split; [| split]].
  - f_equal. now injection Hsetup.
  - apply Hkeeps; [reflexivity | discriminate].
  - exact Htracing.
  - exact Hproject.
Defined.

Lemma setup_environment_asks_nothing_witness :
  setup_environment typed_secret
    (<["GOOGLE_API_KEY" := "a"]> (<["GOOGLE_CSE_ID" := "b"]> {["LANGCHAIN_API_KEY" := "c"]}))
    (quota 0)
  = (Return
       (<["LANGCHAIN_PROJECT" := "Chatbot with Tools"]>
          (<["LANGCHAIN_TRACING_V2" := "true"]>
             (<["GOOGLE_API_KEY" := "a"]>
                (<["GOOGLE_CSE_ID" := "b"]> {["LANGCHAIN_API_KEY" := "c"]})))),
     quota 0).
Proof.
  exact (setup_environment_asks_nothing typed_secret
           (<["GOOGLE_API_KEY" := "a"]>
              (<["GOOGLE_CSE_ID" := "b"]> {["LANGCHAIN_API_KEY" := "c"]}))
           (quota 0) "a" "b" "c" eq_refl eq_refl eq_refl).
Defined.

Lemma scripted_test_setup :
  test_setup typed_secret
    (<["GOOGLE_API_KEY" := "mine"]> {["GOOGLE_CSE_ID" := "engine"]}) (quota 1)
  = (Return (<["GOOGLE_API_KEY" := "secret"]>
               (<["GOOGLE_API_KEY" := "mine"]> {["GOOGLE_CSE_ID" := "engine"]})),
     quota 0).
Proof. vm_compute. reflexivity. Qed.

Lemma test_setup_checks_another_name_witness :
  test_setup typed_secret
    (<["GOOGLE_AI_API_KEY" := "mine"]> {["GOOGLE_CSE_ID" := "engine"]}) (quota 0)
  = (Return (<["GOOGLE_AI_API_KEY" := "mine"]> {["GOOGLE_CSE_ID" := "engine"]}), quota 0)
  /\ exists typed w1,
       typed_secret "Enter your API key: " (quota 1) = (Return typed, w1)
       /\ (<["GOOGLE_API_KEY" := "secret"]>
             (<["GOOGLE_API_KEY" := "mine"]> {["GOOGLE_CSE_ID" := "engine"]})
           : gmap string string) !! "GOOGLE_API_KEY" = Some typed.
Proof.
  split.
  - rewrite (proj1 (test_setup_checks_another_name typed_secret
                      (<["GOOGLE_AI_API_KEY" := "mine"]> {["GOOGLE_CSE_ID" := "engine"]})
                      (quota 0)));
      [reflexivity | now eexists].
  - apply (proj1 (proj2 (proj2 (test_setup_checks_another_name typed_secret
                    (<["GOOGLE_API_KEY" := "mine"]> {["GOOGLE_CSE_ID" := "engine"]})
                    (quota 1)))
                    (<["GOOGLE_API_KEY" := "secret"]>
                       (<["GOOGLE_API_KEY" := "mine"]> {["GOOGLE_CSE_ID" := "engine"]}))
                    (quota 0) scripted_test_setup)).
    reflexivity.
Defined.
